(** * NexaAgents: thread store, termination judge and message hook

  A shallow embedding of
  - [autogen/experimental/terminations/reflection.py]
    ([ReflectionTerminationManager]), and
  - [samples/apps/tinyRA/tinyra/tui.py] ([insert_chat_message],
    [fetch_chat_history], [fetch_row], [generate_response_process] with
    its nested [terminate_on_consecutive_empty], [summarize] and
    [post_snippet_and_record_history], and [TinyRA.handle_input]),
  together with the properties the design document states about them.

  Conventions.  A Python [str] is modelled by the [string] of the bytes
  of its UTF-8 encoding; Python integers are [Z]; a Python exception is
  an explicit outcome [Raise e]; the SQLite table [chat_history] is the
  list of its rows in insertion order.  [json.loads] is embedded with
  the two limits of the interpreter it can run into, the digits [int]
  converts and the depth of nested calls, since the judge catches
  neither of the exceptions they raise. *)

From Stdlib Require Import String Ascii List ZArith Bool Lia DecimalString.
Import ListNotations.

Open Scope string_scope.
Open Scope Z_scope.

(** ** Python strings *)

Module PyStr.

(** The double quote character. *)
Definition dquote : ascii := "034"%char.

Definition code (c : ascii) : Z := Z.of_N (N_of_ascii c).

Definition chr (z : Z) : ascii := ascii_of_N (Z.to_N z).

(** A byte of the form [10xxxxxx] continues a UTF-8 encoded character. *)
Definition is_continuation (c : ascii) : bool :=
  (128 <=? code c) && (code c <? 192).

(** [len(s)]: the number of characters (code points) of [s]. *)
Fixpoint len (s : string) : Z :=
  match s with
  | EmptyString => 0
  | String c rest => (if is_continuation c then 0 else 1) + len rest
  end.

(** [s[:n]]: the first [n] characters of [s]. *)
Fixpoint take (n : nat) (s : string) : string :=
  match s with
  | EmptyString => EmptyString
  | String c rest =>
      if is_continuation c then String c (take n rest)
      else match n with
           | O => EmptyString
           | S n' => String c (take n' rest)
           end
  end.

(** [chr(u).encode("utf-8", "surrogatepass")] *)
Definition utf8 (u : Z) : string :=
  if u <? 128 then String (chr u) EmptyString
  else if u <? 2048 then
    String (chr (192 + u / 64)) (String (chr (128 + u mod 64)) EmptyString)
  else if u <? 65536 then
    String (chr (224 + u / 4096))
      (String (chr (128 + (u / 64) mod 64))
         (String (chr (128 + u mod 64)) EmptyString))
  else
    String (chr (240 + u / 262144))
      (String (chr (128 + (u / 4096) mod 64))
         (String (chr (128 + (u / 64) mod 64))
            (String (chr (128 + u mod 64)) EmptyString))).

(** [s] wrapped in double quotes, to spell JSON text. *)
Definition quoted (s : string) : string :=
  String dquote (s ++ String dquote EmptyString).

End PyStr.

(** ** [json.loads]

  The decoder of Python's [json] package (module [json.decoder] and
  [json.scanner]), with the default options: [strict=True], NaN and the
  infinities accepted.  It is a library the repository calls; the
  embedding follows the library's pure-Python implementation. *)

Module Json.

#[warnings="-register-all"]
Inductive json : Type :=
| JNull                                   (* None *)
| JBool (b : bool)                        (* True / False *)
| JInt (z : Z)                            (* int *)
| JFloat (lexeme : string)                (* float, kept as written *)
| JString (s : string)                    (* str *)
| JArray (items : list json)              (* list *)
| JObject (pairs : list (string * json)). (* dict, pairs as written *)

(** Why a scan stops without a value: the text is not JSON
    ([json.JSONDecodeError]); an integer has more digits than [int]
    converts ([ValueError]); the containers nest deeper than the
    interpreter lets calls nest ([RecursionError]); or the fuel of the
    embedding ran out, which [loads] never lets happen. *)
Inductive failure : Type :=
| DecodeError
| IntTooLong (digits : nat)
| TooDeep
| OutOfFuel.

(** Outcome of scanning a prefix of the text. *)
Inductive scan (A : Type) : Type :=
| Scanned (a : A) (rest : string)
| Failed (f : failure).
Arguments Scanned {A} a rest.
Arguments Failed {A} f.

Definition scan_map {A B} (f : A -> B) (r : scan A) : scan B :=
  match r with
  | Scanned a rest => Scanned (f a) rest
  | Failed x => Failed x
  end.

(** [sys.get_int_max_str_digits()], as the interpreter sets it by
    default: [int] refuses a decimal text with more digits than this. *)
Definition int_max_str_digits : Z := 4300.

(** The message of the [ValueError] of [int] on a text of [digits]
    digits. *)
Definition int_too_long_message (digits : nat) : string :=
  "Exceeds the limit (4300 digits) for integer string conversion: value has "
    ++ NilEmpty.string_of_uint (Nat.to_uint digits)
    ++ " digits; use sys.set_int_max_str_digits() to increase the limit".

(** WHITESPACE: space, tab, line feed, carriage return. *)
Definition is_ws (c : ascii) : bool :=
  let n := PyStr.code c in
  (n =? 32) || (n =? 9) || (n =? 10) || (n =? 13).

Fixpoint skip_ws (s : string) : string :=
  match s with
  | String c rest => if is_ws c then skip_ws rest else s
  | EmptyString => s
  end.

Definition is_digit (c : ascii) : bool :=
  let n := PyStr.code c in (48 <=? n) && (n <=? 57).

Definition hex_digit (c : ascii) : option Z :=
  let n := PyStr.code c in
  if (48 <=? n) && (n <=? 57) then Some (n - 48)
  else if (65 <=? n) && (n <=? 70) then Some (n - 55)
  else if (97 <=? n) && (n <=? 102) then Some (n - 87)
  else None.

(** [_decode_uXXXX]: four hexadecimal digits. *)
Definition hex4 (a b c d : ascii) : option Z :=
  match hex_digit a, hex_digit b, hex_digit c, hex_digit d with
  | Some x, Some y, Some z, Some w => Some (((x * 16 + y) * 16 + z) * 16 + w)
  | _, _, _, _ => None
  end.

(** BACKSLASH: the one-character escapes. *)
Definition simple_escape (c : ascii) : option ascii :=
  let n := PyStr.code c in
  if n =? 34 then Some PyStr.dquote
  else if n =? 92 then Some "\"%char
  else if n =? 47 then Some "/"%char
  else if n =? 98 then Some (PyStr.chr 8)
  else if n =? 102 then Some (PyStr.chr 12)
  else if n =? 110 then Some (PyStr.chr 10)
  else if n =? 114 then Some (PyStr.chr 13)
  else if n =? 116 then Some (PyStr.chr 9)
  else None.

(** What a string literal is made of: a literal byte, or the 16-bit
    unit of a [\uXXXX] escape. *)
Inductive piece : Type :=
| Lit (c : ascii)
| Unit16 (u : Z).

(** [py_scanstring], first half: the pieces up to the closing quote
    ([s] starts just after the opening quote). *)
Fixpoint scan_pieces (s : string) : scan (list piece) :=
  match s with
  | EmptyString => Failed DecodeError                    (* unterminated *)
  | String c rest =>
      if PyStr.code c =? 34 then Scanned [] rest
      else if PyStr.code c =? 92 then
        match rest with
        | EmptyString => Failed DecodeError
        | String e rest1 =>
            if PyStr.code e =? 117 then
              match rest1 with
              | String h1 (String h2 (String h3 (String h4 rest2))) =>
                  match hex4 h1 h2 h3 h4 with
                  | Some u => scan_map (cons (Unit16 u)) (scan_pieces rest2)
                  | None => Failed DecodeError
                  end
              | _ => Failed DecodeError
              end
            else
              match simple_escape e with
              | Some b => scan_map (cons (Lit b)) (scan_pieces rest1)
              | None => Failed DecodeError                (* invalid \escape *)
              end
        end
      else if PyStr.code c <? 32 then Failed DecodeError (* control character *)
      else scan_map (cons (Lit c)) (scan_pieces rest)
  end.

(** [py_scanstring], second half: a high surrogate directly followed by
    a low one is one character; every other unit stands alone. *)
Fixpoint join_pieces (ps : list piece) : string :=
  match ps with
  | [] => EmptyString
  | Lit c :: ps' => String c (join_pieces ps')
  | Unit16 u :: ps' =>
      match ps' with
      | Unit16 u2 :: ps'' =>
          if (55296 <=? u) && (u <=? 56319) && (56320 <=? u2) && (u2 <=? 57343)
          then PyStr.utf8 (65536 + ((u - 55296) * 1024 + (u2 - 56320)))
                 ++ join_pieces ps''
          else PyStr.utf8 u ++ join_pieces ps'
      | _ => PyStr.utf8 u ++ join_pieces ps'
      end
  end.

Definition scanstring (s : string) : scan string :=
  scan_map join_pieces (scan_pieces s).

(** The longest prefix of decimal digits, and what follows it. *)
Fixpoint span_digits (s : string) : string * string :=
  match s with
  | String c rest =>
      if is_digit c
      then let (d, r) := span_digits rest in (String c d, r)
      else (EmptyString, s)
  | EmptyString => (EmptyString, EmptyString)
  end.

Fixpoint digits_value (acc : Z) (d : string) : Z :=
  match d with
  | EmptyString => acc
  | String c rest => digits_value (acc * 10 + (PyStr.code c - 48)) rest
  end.

(** The integer part of NUMBER_RE: a single [0], or a digit from 1 to 9
    followed by any digits. *)
Definition match_int (s : string) : option (string * string) :=
  match s with
  | String c rest =>
      if PyStr.code c =? 48 then Some (String c EmptyString, rest)
      else if is_digit c then Some (span_digits s)
      else None
  | EmptyString => None
  end.

(** The optional fraction of NUMBER_RE: a dot and at least one digit. *)
Definition match_frac (s : string) : string * string :=
  match s with
  | String c rest =>
      if PyStr.code c =? 46 then
        match span_digits rest with
        | (EmptyString, _) => (EmptyString, s)
        | (d, r) => (String c d, r)
        end
      else (EmptyString, s)
  | EmptyString => (EmptyString, s)
  end.

(** The optional exponent of NUMBER_RE: [e] or [E], an optional sign and
    at least one digit. *)
Definition match_exp (s : string) : string * string :=
  match s with
  | String c rest =>
      if (PyStr.code c =? 101) || (PyStr.code c =? 69) then
        match rest with
        | String sg rest1 =>
            if (PyStr.code sg =? 45) || (PyStr.code sg =? 43) then
              match span_digits rest1 with
              | (EmptyString, _) => (EmptyString, s)
              | (d, r) => (String c (String sg d), r)
              end
            else
              match span_digits rest with
              | (EmptyString, _) => (EmptyString, s)
              | (d, r) => (String c d, r)
              end
        | EmptyString => (EmptyString, s)
        end
      else (EmptyString, s)
  | EmptyString => (EmptyString, s)
  end.

(** NUMBER_RE, and the choice between [int] and [float]; [int] raises
    [ValueError] on more than [int_max_str_digits] digits.  [None] when
    the text does not start with a number. *)
Definition match_number (s : string) : option (scan json) :=
  let '(neg, s1) :=
    match s with
    | String c rest => if PyStr.code c =? 45 then (true, rest) else (false, s)
    | EmptyString => (false, s)
    end in
  match match_int s1 with
  | None => None
  | Some (i, s2) =>
      let (f, s3) := match_frac s2 in
      let (e, s4) := match_exp s3 in
      match f, e with
      | EmptyString, EmptyString =>
          if int_max_str_digits <? Z.of_nat (String.length i)
          then Some (Failed (IntTooLong (String.length i)))
          else
            let v := digits_value 0 i in
            Some (Scanned (JInt (if neg then - v else v)) s4)
      | _, _ =>
          Some (Scanned
                  (JFloat ((if neg then "-" else EmptyString) ++ i ++ f ++ e))
                  s4)
      end
  end.

(** [s.startswith(p)], giving what follows [p]. *)
Fixpoint strip_prefix (p s : string) : option string :=
  match p with
  | EmptyString => Some s
  | String a p' =>
      match s with
      | String b s' => if Ascii.eqb a b then strip_prefix p' s' else None
      | EmptyString => None
      end
  end.

(** The scalar cases of [_scan_once], in the order the scanner tries
    them. *)
Definition scan_scalar (s : string) : scan json :=
  match strip_prefix "null" s with
  | Some r => Scanned JNull r
  | None =>
  match strip_prefix "true" s with
  | Some r => Scanned (JBool true) r
  | None =>
  match strip_prefix "false" s with
  | Some r => Scanned (JBool false) r
  | None =>
  match match_number s with
  | Some r => r
  | None =>
  match strip_prefix "NaN" s with
  | Some r => Scanned (JFloat "NaN") r
  | None =>
  match strip_prefix "Infinity" s with
  | Some r => Scanned (JFloat "Infinity") r
  | None =>
  match strip_prefix "-Infinity" s with
  | Some r => Scanned (JFloat "-Infinity") r
  | None => Failed DecodeError                           (* Expecting value *)
  end end end end end end end.

(** [_scan_once], [JSONArray] and [JSONObject].  [array_items] and
    [object_items] are the bodies of the two [while True] loops, entered
    at the start of an item.  [depth] is how many containers may still be
    entered: the scanner enters a recursive call at each [{] and [[],
    before it reads what is inside, and the interpreter raises
    [RecursionError] when its limit is passed. *)
Fixpoint scan_once (fuel depth : nat) (s : string) : scan json :=
  match fuel with
  | O => Failed OutOfFuel
  | S fuel' =>
      match s with
      | EmptyString => Failed DecodeError
      | String c rest =>
          if PyStr.code c =? 34 then scan_map JString (scanstring rest)
          else if PyStr.code c =? 123 then
            match depth with
            | O => Failed TooDeep
            | S depth' =>
                match skip_ws rest with
                | String c1 rest1 =>
                    if PyStr.code c1 =? 125 then Scanned (JObject []) rest1
                    else if PyStr.code c1 =? 34
                    then scan_map JObject (object_items fuel' depth' rest1)
                    else Failed DecodeError
                | EmptyString => Failed DecodeError
                end
            end
          else if PyStr.code c =? 91 then
            match depth with
            | O => Failed TooDeep
            | S depth' =>
                match skip_ws rest with
                | String c1 rest1 =>
                    if PyStr.code c1 =? 93 then Scanned (JArray []) rest1
                    else scan_map JArray
                           (array_items fuel' depth' (String c1 rest1))
                | EmptyString => Failed DecodeError
                end
            end
          else scan_scalar s
      end
  end

with array_items (fuel depth : nat) (s : string) : scan (list json) :=
  match fuel with
  | O => Failed OutOfFuel
  | S fuel' =>
      match scan_once fuel' depth s with
      | Scanned v rest =>
          match skip_ws rest with
          | String c rest1 =>
              if PyStr.code c =? 93 then Scanned [v] rest1
              else if PyStr.code c =? 44
              then scan_map (cons v) (array_items fuel' depth (skip_ws rest1))
              else Failed DecodeError                (* Expecting ',' *)
          | EmptyString => Failed DecodeError
          end
      | Failed x => Failed x
      end
  end

(** [s] starts just after the opening quote of a key. *)
with object_items (fuel depth : nat) (s : string)
  : scan (list (string * json)) :=
  match fuel with
  | O => Failed OutOfFuel
  | S fuel' =>
      match scanstring s with
      | Scanned key rest =>
          match skip_ws rest with
          | String c rest1 =>
              if PyStr.code c =? 58 then
                match scan_once fuel' depth (skip_ws rest1) with
                | Scanned v rest2 =>
                    match skip_ws rest2 with
                    | String c2 rest3 =>
                        if PyStr.code c2 =? 125 then Scanned [(key, v)] rest3
                        else if PyStr.code c2 =? 44 then
                          match skip_ws rest3 with
                          | String c3 rest4 =>
                              if PyStr.code c3 =? 34
                              then scan_map (cons (key, v))
                                     (object_items fuel' depth rest4)
                              else Failed DecodeError
                          | EmptyString => Failed DecodeError
                          end
                        else Failed DecodeError      (* Expecting ',' *)
                    | EmptyString => Failed DecodeError
                    end
                | Failed x => Failed x
                end
              else Failed DecodeError                (* Expecting ':' *)
          | EmptyString => Failed DecodeError
          end
      | Failed x => Failed x
      end
  end.

(** Outcome of [json.loads]: the value, or the exception raised. *)
Inductive loaded : Type :=
| Loaded (v : json)
| JSONDecodeError
| IntegerTooLong (digits : nat)   (* ValueError, from [int] *)
| NestingTooDeep                  (* RecursionError *)
| Exhausted.

(** Enough fuel for any text: see [loads_never_exhausted]. *)
Definition fuel_for (text : string) : nat := 2 * String.length text + 2.

(** [json.loads(text)]: one value, surrounded by white space only.
    [room] is the number of containers the scanner may enter one inside
    the other: what the recursion limit of the interpreter leaves, given
    the calls in progress when the scanner runs. *)
Definition loads (room : nat) (text : string) : loaded :=
  match scan_once (fuel_for text) room (skip_ws text) with
  | Scanned v rest =>
      match skip_ws rest with
      | EmptyString => Loaded v
      | String _ _ => JSONDecodeError              (* Extra data *)
      end
  | Failed DecodeError => JSONDecodeError
  | Failed (IntTooLong digits) => IntegerTooLong digits
  | Failed TooDeep => NestingTooDeep
  | Failed OutOfFuel => Exhausted
  end.

(** [d.get(key, None)] on the [dict] made from [pairs]: of two pairs
    with the same key the later one wins. *)
Fixpoint dict_get (key : string) (pairs : list (string * json)) : json :=
  match pairs with
  | [] => JNull
  | (k, v) :: pairs' =>
      if String.eqb k key && negb (existsb (fun p => String.eqb (fst p) key) pairs')
      then v
      else dict_get key pairs'
  end.

End Json.

(** ** Python outcomes *)

Module Py.

(** The exceptions the embedded code can raise. *)
Inductive exn : Type :=
| ValueError (msg : string)
| AssertionError (msg : string)
| AttributeError       (* [.get] on a value that is not a dict *)
| RecursionError
| IndexError
| KeyError (msg : string)
| UnboundLocalError.

Inductive result (A : Type) : Type :=
| Ok (a : A)
| Raise (e : exn).
Arguments Ok {A} a.
Arguments Raise {A} e.

End Py.

(** ** [autogen/experimental/terminations/reflection.py] *)

Module Reflection.
Import Py Json.

(** Modelled from the spec: the enumeration [TerminationReason] of
    [autogen/experimental/termination.py], which is not part of the
    sources at hand. *)
Inductive TerminationReason : Type :=
| MAX_TURNS_REACHED
| GOAL_REACHED
| CONSECUTIVE_EMPTY_INPUT
| UNSET.

(** Modelled from the spec: the two classes [Terminated] and
    [NotTerminated] of [autogen/experimental/termination.py].  The
    argument of [NotTerminated] is optional; the code passes it whatever
    Python value it holds, so it is a [json] value here, [JNull] being
    [None]. *)
Inductive TerminationResult : Type :=
| Terminated (reason : TerminationReason) (explanation : string)
| NotTerminated (reason : json).

(** Modelled from the spec: the messages of [autogen/experimental/types.py]
    the judge sends to the model. *)
Inductive LLMMessage : Type :=
| SystemMessage (content : string)
| UserMessage (content : string) (source : string)
| AssistantMessage (content : string) (source : string).

(** [response.content]: text, or a list of tool calls. *)
Inductive ResponseContent : Type :=
| Text (s : string)
| FunctionCalls.

(** [ModelClient.create], as what each conversation is answered with:
    a response, or the exception the call raises. *)
Definition ModelClient : Type := list LLMMessage -> result ResponseContent.

Definition SYSTEM_MESSAGE : string :=
"You are a helpful agent that can look at a conversation and decide if a given goal has been reached by that conversation.
    - If code has been proposed but not yet run then the goal has not been reached.
    - If the code has been run and the output is not as expected then the goal has not been reached.
    - If the code has been run and the output is as expected then the goal has been reached.
    - If the conversation has not yet reached the goal then the agent should continue the conversation.

    You must provide your response as JSON, with two properties:
    - `is_done` (bool): whether the goal has been reached.
    - `reason` (str): the reason for your decision.

    Goal: {goal}
".

Record ReflectionTerminationManager : Type := {
  _model_client : ModelClient;
  _goal : string;
  _system_message : string;
  _max_turns : option Z;
  _turns : Z;
  _min_turns : Z
}.

(** [__init__] *)
Definition init (model_client : ModelClient) (goal system_message : string)
    (max_turns : option Z) (min_turns : Z)
  : result ReflectionTerminationManager :=
  let self := {| _model_client := model_client;
                 _goal := goal;
                 _system_message := system_message;
                 _max_turns := max_turns;
                 _turns := 0;
                 _min_turns := min_turns |} in
  if min_turns <? 1 then Raise (ValueError "min_turns must be at least 1")
  else
    match max_turns with
    | Some m =>
        if m <? min_turns
        then Raise (ValueError "max_turns must be greater than or equal to min_turns")
        else Ok self
    | None => Ok self
    end.

Definition set_turns (self : ReflectionTerminationManager) (n : Z)
  : ReflectionTerminationManager :=
  {| _model_client := _model_client self;
     _goal := _goal self;
     _system_message := _system_message self;
     _max_turns := _max_turns self;
     _turns := n;
     _min_turns := _min_turns self |}.

Definition record_turn_taken (self : ReflectionTerminationManager)
  : ReflectionTerminationManager :=
  set_turns self (_turns self + 1).

Definition reset (self : ReflectionTerminationManager)
  : ReflectionTerminationManager :=
  set_turns self 0.

(** [record_turn_taken], [n] times over. *)
Fixpoint after_turns (n : nat) (self : ReflectionTerminationManager)
  : ReflectionTerminationManager :=
  match n with
  | O => self
  | S n' => record_turn_taken (after_turns n' self)
  end.

(** The [try] block of [check_termination]: what is made of the model's
    response.  Only [json.JSONDecodeError] is caught; what else
    [json.loads] raises, and the [AttributeError] of [get] on a value that
    is not a dict, go through.  [room] is passed on to [json.loads]. *)
Definition judge (room : nat) (content : ResponseContent)
  : result TerminationResult :=
  match content with
  | FunctionCalls => Raise (AssertionError "tool calls not supported now")
  | Text text =>
      match loads room text with
      | JSONDecodeError => Ok (NotTerminated (JString "Failed to parse response"))
      | IntegerTooLong digits => Raise (ValueError (int_too_long_message digits))
      | NestingTooDeep => Raise RecursionError
      | Exhausted => Raise RecursionError
      | Loaded (JObject response_json) =>
          let is_done := dict_get "is_done" response_json in
          let reason := dict_get "reason" response_json in
          match is_done, reason with
          | JBool b, JString r =>
              if b then Ok (Terminated GOAL_REACHED r)
              else Ok (NotTerminated (JString r))
          | _, _ => Ok (NotTerminated reason)
          end
      | Loaded _ => Raise AttributeError
      end
  end.

(** A verdict that keeps the conversation going and explains why. *)
Definition keeps_going_with_explanation (r : result TerminationResult)
  : Prop :=
  exists explanation, r = Ok (NotTerminated (JString explanation)).

Definition is_bool (v : json) : Prop := exists b, v = JBool b.
Definition is_str (v : json) : Prop := exists s, v = JString s.

Section CheckTermination.

(** The messages of a chat history, and what [check_termination] relies
    on without it being part of the sources at hand:
    [autogen.experimental.utils.convert_messages_to_llm_messages];
    [str.format] with the single keyword [goal], which raises on a
    template with other fields or stray braces; and the room the
    interpreter has left for nested calls when [json.loads] runs. *)
Variable Message : Type.
Variable convert_messages_to_llm_messages :
  list Message -> string -> result (list LLMMessage).
Variable format_goal : string -> string -> result string.
Variable recursion_room : nat.

(** [reminder_message] *)
Definition reminder_message (self : ReflectionTerminationManager)
  : LLMMessage :=
  AssistantMessage
    ("Please provide your response as JSON, with two properties: `is_done` (bool) and `reason` (str). Goal: "
       ++ _goal self)
    "system".

(** The conversation [check_termination] sends to the model: the system
    message, the converted history, the reminder; or the exception raised
    while building it. *)
Definition entire_conversation (self : ReflectionTerminationManager)
    (messages : list Message) : result (list LLMMessage) :=
  match format_goal (_system_message self) (_goal self) with
  | Raise e => Raise e
  | Ok content =>
      let system_message := SystemMessage content in
      match convert_messages_to_llm_messages messages "reflection" with
      | Raise e => Raise e
      | Ok converted =>
          Ok ([system_message] ++ converted ++ [reminder_message self])%list
      end
  end.

(** [check_termination]: the verdict or the exception, and the
    conversations the model client was called with, in order. *)
Definition check_termination (self : ReflectionTerminationManager)
    (messages : list Message)
  : result TerminationResult * list (list LLMMessage) :=
  if match _max_turns self with
     | Some m => m <=? _turns self
     | None => false
     end
  then (Ok (Terminated MAX_TURNS_REACHED "Max turns reached."), [])
  else if _turns self <=? _min_turns self then (Ok (NotTerminated JNull), [])
  else if Z.of_nat (List.length messages) =? 0 then (Ok (NotTerminated JNull), [])
  else
    match entire_conversation self messages with
    | Raise e => (Raise e, [])
    | Ok conversation =>
        (match _model_client self conversation with
         | Ok response => judge recursion_room response
         | Raise e => Raise e
         end,
         [conversation])
    end.

(** The minimum of turns is passed; and [response_text]: the
    conversation was built and the model answered it with the text. *)
Definition gate_open (self : ReflectionTerminationManager) : Prop :=
  _min_turns self < _turns self.

Definition response_text (self : ReflectionTerminationManager)
    (messages : list Message) (text : string) : Prop :=
  exists conversation,
    entire_conversation self messages = Ok conversation
    /\ _model_client self conversation = Ok (Text text).

End CheckTermination.

End Reflection.

(** ** [samples/apps/tinyRA/tinyra/tui.py]: the table [chat_history] *)

Module ThreadStore.

(** A row of [chat_history(root_id, id, role, content)]. *)
Record row : Type := {
  root_id : Z;
  id : Z;
  role : string;
  content : string
}.

(** The table, rows in insertion order.  Failures of the database itself
    ([sqlite3.Error]) are not modelled. *)
Definition table : Type := list row.

Definition in_root (root : Z) (r : row) : bool := root_id r =? root.

Definition at_key (root i : Z) (r : row) : bool :=
  (root_id r =? root) && (id r =? i).

(** [fetch_chat_history]:
    [SELECT root_id, id, role, content FROM chat_history WHERE root_id = ?] *)
Definition fetch_chat_history (root : Z) (t : table) : list row :=
  filter (in_root root) t.

(** [fetch_row]:
    [SELECT role, content FROM chat_history WHERE id = ? AND root_id = ?],
    then [row[0] if row else None]. *)
Definition fetch_row (i : Z) (root : Z) (t : table) : option row :=
  match filter (at_key root i) t with
  | r :: _ => Some r
  | [] => None
  end.

(** [SELECT MAX(id) FROM chat_history WHERE root_id = ?] *)
Fixpoint max_of (l : list Z) : option Z :=
  match l with
  | [] => None
  | x :: l' =>
      match max_of l' with
      | Some m => Some (Z.max x m)
      | None => Some x
      end
  end.

Definition select_max_id (root : Z) (t : table) : option Z :=
  max_of (map id (fetch_chat_history root t)).

(** [UPDATE chat_history SET role = ?, content = ? WHERE root_id = ? AND id = ?] *)
Definition update (new_role new_content : string) (root i : Z) (t : table)
  : table :=
  map (fun r =>
         if at_key root i r
         then {| root_id := root_id r; id := id r;
                 role := new_role; content := new_content |}
         else r) t.

(** [INSERT INTO chat_history (root_id, id, role, content) VALUES (?, ?, ?, ?)] *)
Definition insert (root i : Z) (new_role new_content : string) (t : table)
  : table :=
  (t ++ [{| root_id := root; id := i;
            role := new_role; content := new_content |}])%list.

(** [insert_chat_message(role, content, root_id, id=None)]: the id it
    returns and the table it leaves. *)
Definition insert_chat_message (new_role new_content : string) (root : Z)
    (i : option Z) (t : table) : Z * table :=
  match i with
  | None =>
      let max_id := select_max_id root t in
      let i := match max_id with
               | Some m => m + 1
               | None => 0
               end in
      (i, insert root i new_role new_content t)
  | Some i =>
      match filter (at_key root i) t with
      | [] => (i, insert root i new_role new_content t)
      | _ :: _ => (i, update new_role new_content root i t)
      end
  end.

(** [a_insert_chat_message]: the same statements, awaited. *)
Definition a_insert_chat_message (new_role new_content : string) (root : Z)
    (i : option Z) (t : table) : Z * table :=
  match i with
  | None =>
      let item := Some (select_max_id root t) in
      let max_id := match item with
                    | Some m => m
                    | None => None
                    end in
      let i := match max_id with
               | Some m => m + 1
               | None => 0
               end in
      (i, insert root i new_role new_content t)
  | Some i =>
      match filter (at_key root i) t with
      | [] => (i, insert root i new_role new_content t)
      | _ :: _ => (i, update new_role new_content root i t)
      end
  end.

(** [a_fetch_row] *)
Definition a_fetch_row (i : Z) (root : Z) (t : table) : option row :=
  fetch_row i root t.

(** One call of [insert_chat_message]. *)
Record append : Type := {
  a_role : string;
  a_content : string;
  a_root : Z;
  a_id : option Z
}.

Definition run_append (a : append) (t : table) : Z * table :=
  insert_chat_message (a_role a) (a_content a) (a_root a) (a_id a) t.

(** A sequence of calls: the ids returned, and the table left. *)
Fixpoint run_appends (l : list append) (t : table) : list Z * table :=
  match l with
  | [] => ([], t)
  | a :: l' =>
      let (i, t1) := run_append a t in
      let (ids, t2) := run_appends l' t1 in
      (i :: ids, t2)
  end.

(** The id [insert_chat_message] gives when none is passed. *)
Definition next_id (root : Z) (t : table) : Z :=
  match select_max_id root t with
  | Some m => m + 1
  | None => 0
  end.

(** The row a call writes. *)
Definition mk_row (root i : Z) (new_role new_content : string) : row :=
  {| root_id := root; id := i; role := new_role; content := new_content |}.

(** A call with the id left out. *)
Definition auto_append (root : Z) (rc : string * string) : append :=
  {| a_role := fst rc; a_content := snd rc; a_root := root; a_id := None |}.

(** The rows of [calls], numbered from [k] on. *)
Fixpoint numbered (root : Z) (k : nat) (calls : list (string * string))
  : list row :=
  match calls with
  | [] => []
  | rc :: calls' =>
      mk_row root (Z.of_nat k) (fst rc) (snd rc) :: numbered root (S k) calls'
  end.

(** The keys [(root_id, id)] of the rows, in table order. *)
Definition keys (t : table) : list (Z * Z) :=
  map (fun r => (root_id r, id r)) t.

(** The ids of a thread, in the order [fetch_chat_history] gives its
    rows. *)
Definition thread_ids (root : Z) (t : table) : list Z :=
  map id (fetch_chat_history root t).


(** How many rows sit at [(root, i)]. *)
Definition count_at (root i : Z) (t : table) : nat :=
  List.length (filter (at_key root i) t).

End ThreadStore.

(** ** [samples/apps/tinyRA/tinyra/tui.py]: [generate_response_process] *)

Module Tui.
Import Py ThreadStore.

(** An agent, as far as the code looks at it: [sender.name]. *)
Record Agent : Type := { name : string }.

(** A message of a chat as [terminate_on_consecutive_empty] reads it:
    [message["role"]] and [message["content"]]. *)
Record chat_message : Type := {
  msg_role : string;
  msg_content : string
}.

(** The [for message in reversed(messages)] loop, on the reversed list:
    the value of [consecutive_are_empty] when the loop is left. *)
Fixpoint scan_reversed (reversed : list chat_message) (last_n : Z)
    (consecutive_are_empty : option bool) : option bool :=
  match reversed with
  | [] => consecutive_are_empty
  | message :: reversed' =>
      if last_n =? 0 then consecutive_are_empty
      else if String.eqb (msg_role message) "user" then
        let last_n := last_n - 1 in
        if PyStr.len (msg_content message) =? 0
        then scan_reversed reversed' last_n (Some true)
        else Some false
      else scan_reversed reversed' last_n consecutive_are_empty
  end.

(** [terminate_on_consecutive_empty(recipient, messages, sender)] *)
Definition terminate_on_consecutive_empty (recipient : Agent)
    (messages : list chat_message) (sender : Agent) : bool * option string :=
  let consecutive_are_empty := None in
  let last_n := 2 in
  match scan_reversed (rev messages) last_n consecutive_are_empty with
  | Some true => (true, Some "TERMINATE")
  | _ => (false, None)
  end.

(** The rule as the design document words it: the two most recent
    [user] messages exist and are both empty. *)
Definition is_user (m : chat_message) : bool := String.eqb (msg_role m) "user".

Definition is_empty (m : chat_message) : bool :=
  PyStr.len (msg_content m) =? 0.

Definition user_messages_backward (messages : list chat_message)
  : list chat_message :=
  filter is_user (rev messages).

Definition two_most_recent_empty (messages : list chat_message) : bool :=
  match user_messages_backward messages with
  | m1 :: m2 :: _ => is_empty m1 && is_empty m2
  | _ => false
  end.

(** The rule as the loop computes it: the most recent [user] messages,
    two of them or the only one, are all empty. *)
Definition most_recent_empty (messages : list chat_message) : bool :=
  match user_messages_backward messages with
  | m1 :: m2 :: _ => is_empty m1 && is_empty m2
  | [m1] => is_empty m1
  | [] => false
  end.

(** [summarize(text)]: [text[:100]] *)
Definition summarize (text : string) : string := PyStr.take 100 text.

Section Hook.

(** A tool call, and [json.dumps] on a list of them: the payload is
    built by the agents and serialised by the [json] library. *)
Variable ToolCall : Type.
Variable json_dumps : list ToolCall -> string.

(** A message handed to the hook: a [str], a [Dict] with its
    ["content"] and ["tool_calls"] entries ([None] when the key is
    missing or holds [None]), or anything else. *)
Inductive message : Type :=
| Str (s : string)
| Dict (content : option string) (tool_calls : option (list ToolCall))
| Other.

(** Truth value of [message.get("content")]. *)
Definition truthy_content (c : option string) : bool :=
  match c with
  | Some (String _ _) => true
  | _ => false
  end.

(** Truth value of [message.get("tool_calls")]. *)
Definition truthy_tool_calls (tc : option (list ToolCall)) : bool :=
  match tc with
  | Some (_ :: _) => true
  | _ => false
  end.

(** The last two statements of the hook before [return message]. *)
Definition post_snippet (msg_idx : Z) (summary : string) (t : table)
  : table :=
  let snippet := summarize summary in
  snd (insert_chat_message "info" snippet 0 (Some (msg_idx + 1)) t).

(** [post_snippet_and_record_history(sender, message, recipient, silent)],
    a closure over [msg_idx]: what it returns and the table it
    leaves. *)
Definition post_snippet_and_record_history (msg_idx : Z) (sender : Agent)
    (m : message) (recipient : Agent) (silent : bool) (t : table)
  : result message * table :=
  if silent then (Ok m, t)
  else
    match m with
    | Str s =>
        let summary := s in
        let t1 := snd (insert_chat_message (name sender) s (msg_idx + 1) None t) in
        (Ok m, post_snippet msg_idx summary t1)
    | Dict c tc =>
        if truthy_content c then
          let summary := match c with Some s => s | None => EmptyString end in
          let t1 := snd (insert_chat_message (name sender) summary
                           (msg_idx + 1) None t) in
          (Ok m, post_snippet msg_idx summary t1)
        else if truthy_tool_calls tc then
          let tool_calls := match tc with Some l => l | None => [] end in
          let summary := "Calling tools…" in
          let t1 := snd (insert_chat_message (name sender)
                           (json_dumps tool_calls) (msg_idx + 1) None t) in
          (Ok m, post_snippet msg_idx summary t1)
        else (Raise (ValueError "Message must have a content or tool_calls key"), t)
    | Other => (Raise UnboundLocalError, t)
    end.

(** [carries m content summary]: the message has text, or a
    structured call and no text; [content] is what is to be stored
    for it and [summary] what its snippet is cut from. *)
Inductive carries : message -> string -> string -> Prop :=
| carries_str (s : string) :
    carries (Str s) s s
| carries_content (c : ascii) (s : string) tc :
    carries (Dict (Some (String c s)) tc) (String c s) (String c s)
| carries_tool_calls (c : option string) (call : ToolCall) calls :
    truthy_content c = false ->
    carries (Dict c (Some (call :: calls)))
      (json_dumps (call :: calls)) "Calling tools…".

(** One message sent by an agent during the exchange, as the hook
    receives it. *)
Record send : Type := {
  sender : Agent;
  sent : message;
  recipient : Agent;
  silent : bool
}.

(** The agents ([AssistantAgent], [UserProxyAgent]) and the model
    behind them are external: an exchange is what they did, that is
    the messages they sent, each one passing through the hook, and the
    content of the last message of the chat. *)
Record exchange : Type := {
  sends : list send;
  response : string
}.

(** The hook on every message of the exchange, stopping at the first
    exception. *)
Fixpoint run_hooks (msg_idx : Z) (l : list send) (t : table)
  : result unit * table :=
  match l with
  | [] => (Ok tt, t)
  | s :: l' =>
      match post_snippet_and_record_history msg_idx
              (sender s) (sent s) (recipient s) (silent s) t with
      | (Ok _, t1) => run_hooks msg_idx l' t1
      | (Raise e, t1) => (Raise e, t1)
      end
  end.

(** [chat_history[msg_idx]] on a Python list. *)
Definition py_index {A : Type} (l : list A) (i : Z) : option A :=
  let n := Z.of_nat (List.length l) in
  if (0 <=? i) && (i <? n) then nth_error l (Z.to_nat i)
  else if (- n <=? i) && (i <? 0) then nth_error l (Z.to_nat (n + i))
  else None.

(** [generate_response_process(msg_idx)] *)
Definition generate_response_process (msg_idx : Z) (ex : exchange)
    (t : table) : result unit * table :=
  let chat_history := fetch_chat_history 0 t in
  match py_index chat_history msg_idx with
  | None => (Raise IndexError, t)
  | Some task_row =>
      match run_hooks msg_idx (sends ex) t with
      | (Raise e, t1) => (Raise e, t1)
      | (Ok _, t1) =>
          (Ok tt,
           snd (insert_chat_message "assistant" (response ex) 0
                  (Some (msg_idx + 1)) t1))
      end
  end.

(** [TinyRA.handle_input(user_input)], the widgets left out; the
    worker [generate_response] runs [generate_response_process]. *)
Definition handle_input (user_input : string) (ex : exchange) (t : table)
  : result unit * table :=
  let (i, t1) := a_insert_chat_message "user" user_input 0 None t in
  match a_fetch_row i 0 t1 with
  | None => (Ok tt, t1)
  | Some user_message =>
      let t2 := snd (a_insert_chat_message "info" "Computing response…" 0
                       (Some (i + 1)) t1) in
      generate_response_process i ex t2
  end.

(** The messages the hook has something to store for. *)
Definition storable (m : message) : bool :=
  match m with
  | Str _ => true
  | Dict c tc => truthy_content c || truthy_tool_calls tc
  | Other => false
  end.

(** The sends of an exchange that are not silent. *)
Definition loud (l : list send) : list send :=
  filter (fun s => negb (silent s)) l.

End Hook.

Arguments Str {ToolCall} s.
Arguments Dict {ToolCall} content tool_calls.
Arguments Other {ToolCall}.

End Tui.

(** ** [samples/apps/tinyRA/tinyra/tui.py]: the profiler *)

Module Profiler.
Import ThreadStore.

(** [s.split(sep)] for a separator of one character. *)
Fixpoint split (sep : ascii) (s : string) : list string :=
  match s with
  | EmptyString => [EmptyString]
  | String c rest =>
      if Ascii.eqb c sep then EmptyString :: split sep rest
      else
        match split sep rest with
        | piece :: pieces => String c piece :: pieces
        | [] => [String c EmptyString]
        end
  end.

(** [sep in s] for a character [sep]. *)
Fixpoint has_char (sep : ascii) (s : string) : bool :=
  match s with
  | EmptyString => false
  | String c rest => Ascii.eqb c sep || has_char sep rest
  end.

(** [sep.join(pieces)] *)
Fixpoint join (sep : ascii) (pieces : list string) : string :=
  match pieces with
  | [] => EmptyString
  | [piece] => piece
  | piece :: pieces' => piece ++ String sep (join sep pieces')
  end.

(** [AgentMessage] *)
Record AgentMessage : Type := {
  am_role : string;
  am_content : string
}.

(** [State] *)
Record State : Type := {
  name : string;
  description : string;
  tags : list string
}.

(** [MessageProfile]; the two floats are only ever [0.0] and are kept as
    the integer 0. *)
Record MessageProfile : Type := {
  message : AgentMessage;
  cost : Z;
  duration : Z;
  states : list State
}.

(** [ChatProfile] *)
Record ChatProfile : Type := {
  num_messages : Z;
  message_profiles : list MessageProfile
}.

Section Profile.

(** The model behind [autogen.OpenAIWrapper] is external: [ask message]
    is the text it answers to the prompt [profile_message] builds for
    [message]. *)
Variable ask : AgentMessage -> string.

(** [Profiler.profile_message(message)], from the response on. *)
Definition profile_message (m : AgentMessage) : MessageProfile :=
  let response := ask m in
  let extracted_states_names := split "," response in
  let extracted_states :=
    map (fun state_name =>
           {| name := state_name; description := EmptyString; tags := [] |})
      extracted_states_names in
  {| message := m; cost := 0; duration := 0; states := extracted_states |}.

(** [ProfilerContainer.profile_chat()], on the history
    [update_chat_history] fetched. *)
Definition profile_chat (chat_history : list row) : ChatProfile :=
  let message_profile_list :=
    map (fun r =>
           profile_message {| am_role := role r; am_content := content r |})
      chat_history in
  {| num_messages := Z.of_nat (List.length chat_history);
     message_profiles := message_profile_list |}.

End Profile.

(** [state_name_comparator(x, y)]: [x.name < y.name], a [bool]. *)
Definition state_name_comparator (x y : State) : bool :=
  String.ltb (name x) (name y).

(** [functools.cmp_to_key(mycmp)]: the key of [x] is less than the key of
    [y] when [mycmp(x, y) < 0]; a [bool] counts as 0 or 1. *)
Definition key_lt (mycmp : State -> State -> bool) (x y : State) : bool :=
  Z.b2z (mycmp x y) <? 0.

(** [list.sort]: a stable sort that compares with [<] only, here by
    insertion from the right; an element goes before the first one that
    is not less than it. *)
Fixpoint insert_stable (lt : State -> State -> bool) (x : State)
    (l : list State) : list State :=
  match l with
  | [] => [x]
  | y :: l' => if lt y x then y :: insert_stable lt x l' else x :: l
  end.

Fixpoint sort (lt : State -> State -> bool) (l : list State) : list State :=
  match l with
  | [] => []
  | x :: l' => insert_stable lt x (sort lt l')
  end.

(** The order in which [ProfileNode.compose] shows the states. *)
Definition displayed_states (p : MessageProfile) : list State :=
  sort (key_lt state_name_comparator) (states p).

End Profiler.

(** ** Sample inputs *)

Module Sample.
Import PyStr Json Reflection.

(** A history of plain texts, each converted to a user message. *)
Definition convert (messages : list string) (source : string)
  : Py.result (list LLMMessage) :=
  Py.Ok (map (fun m => UserMessage m source) messages).

(** The argument a replacement field names: what comes before the first
    [!], [:], [.] or [[]. *)
Fixpoint arg_name (field : string) : string :=
  match field with
  | EmptyString => EmptyString
  | String c rest =>
      if (code c =? 33) || (code c =? 58) || (code c =? 46) || (code c =? 91)
      then EmptyString
      else String c (arg_name rest)
  end.

Definition all_digits (s : string) : bool :=
  forallb is_digit (list_ascii_of_string s).

(** The value of a replacement field when [goal] is the only argument:
    a field without name or with a number asks for a positional argument
    ([IndexError]), another name for a keyword that is not there
    ([KeyError]).  The field [goal] with a conversion, a format
    specification, an attribute or an index is beyond this formatter,
    which refuses it. *)
Definition field_value (goal field : string) : Py.result string :=
  let arg := arg_name field in
  if all_digits arg
  then Py.Raise Py.IndexError
  else if negb (String.eqb arg "goal") then Py.Raise (Py.KeyError arg)
  else if String.eqb field "goal" then Py.Ok goal
  else Py.Raise (Py.ValueError "field beyond this formatter").

(** [template.format(goal=goal)]: literal text, doubled braces, and
    replacement fields, read from left to right; [field] is the field
    being read, if any. *)
Fixpoint format_from (goal : string) (field : option string) (s : string)
  : Py.result string :=
  match field with
  | None =>
      match s with
      | EmptyString => Py.Ok EmptyString
      | String c rest =>
          if code c =? 123 then
            match rest with
            | String c1 rest1 =>
                if code c1 =? 123 then
                  match format_from goal None rest1 with
                  | Py.Ok out => Py.Ok (String c out)
                  | Py.Raise e => Py.Raise e
                  end
                else format_from goal (Some EmptyString) rest
            | EmptyString =>
                Py.Raise (Py.ValueError "Single '{' encountered in format string")
            end
          else if code c =? 125 then
            match rest with
            | String c1 rest1 =>
                if code c1 =? 125 then
                  match format_from goal None rest1 with
                  | Py.Ok out => Py.Ok (String c out)
                  | Py.Raise e => Py.Raise e
                  end
                else
                  Py.Raise (Py.ValueError "Single '}' encountered in format string")
            | EmptyString =>
                Py.Raise (Py.ValueError "Single '}' encountered in format string")
            end
          else
            match format_from goal None rest with
            | Py.Ok out => Py.Ok (String c out)
            | Py.Raise e => Py.Raise e
            end
      end
  | Some name =>
      match s with
      | EmptyString =>
          Py.Raise (Py.ValueError "expected '}' before end of string")
      | String c rest =>
          if code c =? 125 then
            match field_value goal name with
            | Py.Raise e => Py.Raise e
            | Py.Ok value =>
                match format_from goal None rest with
                | Py.Ok out => Py.Ok (value ++ out)
                | Py.Raise e => Py.Raise e
                end
            end
          else if code c =? 123 then
            Py.Raise (Py.ValueError "unexpected '{' in field name")
          else format_from goal (Some (name ++ String c EmptyString)) rest
      end
  end.

Definition format_goal (template goal : string) : Py.result string :=
  format_from goal None template.

(** Room for a thousand nested calls. *)
Definition room : nat := 1000.

(** A model client that answers [text] whatever it is asked. *)
Definition answering (text : string) : ModelClient :=
  fun _ => Py.Ok (Text text).

(** A manager that has seen [turns] turns. *)
Definition manager (text : string) (max_turns : option Z) (min_turns turns : Z)
  : ReflectionTerminationManager :=
  {| _model_client := answering text;
     _goal := "print hello";
     _system_message := SYSTEM_MESSAGE;
     _max_turns := max_turns;
     _turns := turns;
     _min_turns := min_turns |}.

(** [{"is_done": true, "reason": "done"}] *)
Definition done_text : string :=
  "{" ++ quoted "is_done" ++ ": true, " ++ quoted "reason" ++ ": "
      ++ quoted "done" ++ "}".

(** [{"is_done": "yes"}] *)
Definition mistyped_text : string :=
  "{" ++ quoted "is_done" ++ ": " ++ quoted "yes" ++ "}".

Definition history : list string := ["hello"; "world"].

(** [{"is_done": true, "reason": "done", "n": 99...9}], the integer
    with [digits] digits. *)
Fixpoint nines (digits : nat) : string :=
  match digits with
  | O => EmptyString
  | S n => String "9" (nines n)
  end.

Definition long_integer_text (digits : nat) : string :=
  "{" ++ quoted "is_done" ++ ": true, " ++ quoted "reason" ++ ": "
      ++ quoted "done" ++ ", " ++ quoted "n" ++ ": " ++ nines digits ++ "}".

(** A manager that passed its minimum of turns. *)
Definition asked (text : string) : ReflectionTerminationManager :=
  manager text None 1 2.

(** The same, with a system message of its own. *)
Definition with_template (template text : string)
  : ReflectionTerminationManager :=
  {| _model_client := answering text;
     _goal := "print hello";
     _system_message := template;
     _max_turns := None;
     _turns := 2;
     _min_turns := 1 |}.

(** The two agents of [generate_response_process]. *)
Definition assistant : Tui.Agent := {| Tui.name := "assistant" |}.
Definition user : Tui.Agent := {| Tui.name := "user" |}.

(** Tool calls without content, all serialised alike. *)
Definition dumps (calls : list unit) : string := "[{}]".

(** An exchange of one message, answered by ["done"]. *)
Definition one_message : Tui.exchange unit :=
  {| Tui.sends := [ {| Tui.sender := assistant;
                       Tui.sent := Tui.Str "working on it";
                       Tui.recipient := user;
                       Tui.silent := false |} ];
     Tui.response := "done" |}.

(** An exchange whose second message has neither content nor tool
    calls. *)
Definition broken_exchange : Tui.exchange unit :=
  {| Tui.sends := [ {| Tui.sender := assistant;
                       Tui.sent := Tui.Str "step one";
                       Tui.recipient := user;
                       Tui.silent := false |};
                    {| Tui.sender := user;
                       Tui.sent := Tui.Dict None None;
                       Tui.recipient := assistant;
                       Tui.silent := false |} ];
     Tui.response := "done" |}.

Definition said (who text : string) : Tui.chat_message :=
  {| Tui.msg_role := who; Tui.msg_content := text |}.

(** A profiling model that answers with two codes, whatever the
    message. *)
Definition two_codes (m : Profiler.AgentMessage) : string :=
  "PLANNING, CODING".

End Sample.

(** * Properties *)

(** ** The decoder always answers *)

Section JsonFacts.
Import Json.

Local Open Scope nat_scope.

Lemma skip_ws_length (s : string) :
  String.length (skip_ws s) <= String.length s.
Proof.
  induction s as [|c s IH]; simpl; [lia|].
  destruct (is_ws c); simpl; lia.
Qed.

Lemma scan_map_scanned {A B} (f : A -> B) (r : scan A) b rest :
  scan_map f r = Scanned b rest ->
  exists a, r = Scanned a rest /\ b = f a.
Proof.
  destruct r; simpl; intros H; inversion H; subst; eauto.
Qed.

Lemma scan_map_fuel {A B} (f : A -> B) (r : scan A) (x : failure) :
  scan_map f r = Failed x -> r = Failed x.
Proof.
  destruct r; simpl; intros H; congruence.
Qed.

Lemma scan_pieces_spec (n : nat) :
  forall s, String.length s <= n ->
    scan_pieces s <> Failed OutOfFuel /\
    forall ps rest, scan_pieces s = Scanned ps rest ->
      String.length rest < String.length s.
Proof.
  induction n as [|n IH]; intros s Hn.
  - destruct s; simpl in *; [|lia]. split; [discriminate|intros; discriminate].
  - destruct s as [|c rest]; simpl; [split; [discriminate|intros; discriminate]|].
    simpl in Hn.
    destruct (PyStr.code c =? 34)%Z.
    { split; [discriminate|]. intros ps r H; inversion H; subst; lia. }
    destruct (PyStr.code c =? 92)%Z.
    + destruct rest as [|e rest1]; [split; [discriminate|intros; discriminate]|].
      simpl in Hn.
      destruct (PyStr.code e =? 117)%Z.
      * destruct rest1 as [|h1 [|h2 [|h3 [|h4 rest2]]]];
          try (split; [discriminate|intros; discriminate]).
        simpl in Hn.
        destruct (hex4 h1 h2 h3 h4);
          [|split; [discriminate|intros; discriminate]].
        destruct (IH rest2 ltac:(lia)) as [Hf Hs]. split.
        -- intros H; apply scan_map_fuel in H; auto.
        -- intros ps r H. apply scan_map_scanned in H as (qs & Ha & _).
           apply Hs in Ha. simpl; lia.
      * destruct (simple_escape e);
          [|split; [discriminate|intros; discriminate]].
        destruct (IH rest1 ltac:(lia)) as [Hf Hs]. split.
        -- intros H; apply scan_map_fuel in H; auto.
        -- intros ps r H. apply scan_map_scanned in H as (qs & Ha & _).
           apply Hs in Ha. simpl; lia.
    + destruct (PyStr.code c <? 32)%Z;
        [split; [discriminate|intros; discriminate]|].
      destruct (IH rest ltac:(lia)) as [Hf Hs]. split.
      * intros H; apply scan_map_fuel in H; auto.
      * intros ps r H. apply scan_map_scanned in H as (qs & Ha & _).
        apply Hs in Ha. simpl; lia.
Qed.

Lemma scanstring_fuel (s : string) : scanstring s <> Failed OutOfFuel.
Proof.
  unfold scanstring. intros H. apply scan_map_fuel in H.
  now apply (scan_pieces_spec (String.length s) s (le_n _)).
Qed.

Lemma scanstring_shrinks (s : string) v rest :
  scanstring s = Scanned v rest -> String.length rest < String.length s.
Proof.
  unfold scanstring. intros H. apply scan_map_scanned in H as (qs & Ha & _).
  now apply (scan_pieces_spec (String.length s) s (le_n _)) in Ha.
Qed.

Lemma span_digits_length (s : string) :
  String.length (snd (span_digits s)) <= String.length s.
Proof.
  induction s as [|c s IH]; simpl; [lia|].
  destruct (is_digit c); simpl; [|lia].
  destruct (span_digits s); simpl in *; lia.
Qed.

Lemma match_int_shrinks (s i r : string) :
  match_int s = Some (i, r) -> String.length r < String.length s.
Proof.
  destruct s as [|c rest]; simpl; [discriminate|].
  destruct (PyStr.code c =? 48)%Z.
  - intros H; inversion H; subst; lia.
  - destruct (is_digit c); [|discriminate].
    pose proof (span_digits_length rest) as Hl.
    destruct (span_digits rest); simpl in *.
    intros H; inversion H; subst; lia.
Qed.

Lemma match_frac_length (s : string) :
  String.length (snd (match_frac s)) <= String.length s.
Proof.
  destruct s as [|c rest]; simpl; [lia|].
  destruct (PyStr.code c =? 46)%Z; simpl; [|lia].
  pose proof (span_digits_length rest) as Hl.
  destruct (span_digits rest) as [[|d ds] r]; simpl in *; lia.
Qed.

Lemma match_exp_length (s : string) :
  String.length (snd (match_exp s)) <= String.length s.
Proof.
  destruct s as [|c rest]; simpl; [lia|].
  destruct ((PyStr.code c =? 101)%Z || (PyStr.code c =? 69)%Z); simpl; [|lia].
  destruct rest as [|sg rest1]; simpl; [lia|].
  destruct ((PyStr.code sg =? 45)%Z || (PyStr.code sg =? 43)%Z).
  - pose proof (span_digits_length rest1) as Hl.
    destruct (span_digits rest1) as [[|d ds] r]; simpl in *; lia.
  - pose proof (span_digits_length rest1) as Hl.
    destruct (is_digit sg); [|simpl; lia].
    destruct (span_digits rest1) as [ds r]; simpl in *; lia.
Qed.

Lemma match_number_spec (s : string) (r : scan json) :
  match_number s = Some r ->
  r <> Failed OutOfFuel
  /\ forall v rest, r = Scanned v rest ->
                    String.length rest < String.length s.
Proof.
  unfold match_number.
  set (p := match s with
            | String c rest =>
                if (PyStr.code c =? 45)%Z then (true, rest) else (false, s)
            | EmptyString => (false, s)
            end).
  assert (Hp : String.length (snd p) <= String.length s).
  { subst p. destruct s as [|c rest]; simpl; [lia|].
    destruct (PyStr.code c =? 45)%Z; simpl; lia. }
  destruct p as [neg s1]; simpl in Hp.
  destruct (match_int s1) as [[i s2]|] eqn:Hi; [|discriminate].
  apply match_int_shrinks in Hi.
  pose proof (match_frac_length s2) as Hf.
  destruct (match_frac s2) as [f s3]; simpl in Hf.
  pose proof (match_exp_length s3) as He.
  destruct (match_exp s3) as [e s4]; simpl in He.
  destruct f, e;
    try destruct (int_max_str_digits <? Z.of_nat (String.length i))%Z;
    intros H; inversion H; subst;
    (split; [discriminate|intros v rest E; inversion E; subst; lia]).
Qed.

Lemma strip_prefix_length (p s r : string) :
  strip_prefix p s = Some r ->
  String.length s = String.length p + String.length r.
Proof.
  revert s; induction p as [|a p IH]; intros s; simpl.
  - intros H; inversion H; reflexivity.
  - destruct s as [|b s']; [discriminate|].
    destruct (Ascii.eqb a b); [|discriminate].
    intros H; apply IH in H; simpl; lia.
Qed.

Lemma scan_scalar_fuel (s : string) : scan_scalar s <> Failed OutOfFuel.
Proof.
  unfold scan_scalar.
  repeat match goal with
         | |- context [strip_prefix ?p s] =>
             destruct (strip_prefix p s); [discriminate|]
         | |- context [match_number s] =>
             let H := fresh "H" in
             destruct (match_number s) as [r|] eqn:H;
             [now apply match_number_spec in H|]
         end.
  discriminate.
Qed.

Lemma scan_scalar_shrinks (s : string) v rest :
  scan_scalar s = Scanned v rest -> String.length rest < String.length s.
Proof.
  unfold scan_scalar.
  repeat match goal with
         | |- context [strip_prefix ?p s] =>
             let H := fresh "H" in
             destruct (strip_prefix p s) eqn:H;
             [apply strip_prefix_length in H; simpl in H;
              intros E; inversion E; subst; lia|]
         | |- context [match_number s] =>
             let H := fresh "H" in
             destruct (match_number s) as [r|] eqn:H;
             [apply match_number_spec in H; destruct H as [_ H];
              intros E; now apply H in E|]
         end.
  discriminate.
Qed.

Ltac scanned_absurd :=
  try discriminate;
  try (intros; discriminate).

Lemma scan_shrinks (fuel : nat) :
  (forall depth s v rest, scan_once fuel depth s = Scanned v rest ->
     String.length rest < String.length s) /\
  (forall depth s vs rest, array_items fuel depth s = Scanned vs rest ->
     String.length rest < String.length s) /\
  (forall depth s kvs rest, object_items fuel depth s = Scanned kvs rest ->
     String.length rest < String.length s).
Proof.
  induction fuel as [|fuel (IHv & IHa & IHo)];
    [repeat split; intros; discriminate|].
  repeat split.
  - intros depth s v rest. simpl.
    destruct s as [|c s0]; [discriminate|].
    destruct (PyStr.code c =? 34)%Z.
    { intros H. apply scan_map_scanned in H as (x & Hx & _).
      apply scanstring_shrinks in Hx. simpl; lia. }
    destruct (PyStr.code c =? 123)%Z.
    { destruct depth as [|depth]; [discriminate|].
      pose proof (skip_ws_length s0) as Hw.
      destruct (skip_ws s0) as [|c1 rest1]; [discriminate|]. simpl in Hw.
      destruct (PyStr.code c1 =? 125)%Z.
      { intros H; inversion H; subst; simpl; lia. }
      destruct (PyStr.code c1 =? 34)%Z; [|discriminate].
      intros H. apply scan_map_scanned in H as (x & Hx & _).
      apply IHo in Hx. simpl; lia. }
    destruct (PyStr.code c =? 91)%Z.
    { destruct depth as [|depth]; [discriminate|].
      pose proof (skip_ws_length s0) as Hw.
      destruct (skip_ws s0) as [|c1 rest1]; [discriminate|]. simpl in Hw.
      destruct (PyStr.code c1 =? 93)%Z.
      { intros H; inversion H; subst; simpl; lia. }
      intros H. apply scan_map_scanned in H as (x & Hx & _).
      apply IHa in Hx. simpl in *; lia. }
    apply scan_scalar_shrinks.
  - intros depth s vs rest. simpl.
    destruct (scan_once fuel depth s) as [v r|x] eqn:Hv; scanned_absurd.
    apply IHv in Hv.
    pose proof (skip_ws_length r) as Hw.
    destruct (skip_ws r) as [|c rest1]; scanned_absurd. simpl in Hw.
    destruct (PyStr.code c =? 93)%Z.
    { intros H; inversion H; subst; lia. }
    destruct (PyStr.code c =? 44)%Z; scanned_absurd.
    intros H. apply scan_map_scanned in H as (y & Hy & _).
    apply IHa in Hy. pose proof (skip_ws_length rest1). lia.
  - intros depth s kvs rest. simpl.
    destruct (scanstring s) as [key r|x] eqn:Hk; scanned_absurd.
    apply scanstring_shrinks in Hk.
    pose proof (skip_ws_length r) as Hw.
    destruct (skip_ws r) as [|c rest1]; scanned_absurd. simpl in Hw.
    destruct (PyStr.code c =? 58)%Z; scanned_absurd.
    destruct (scan_once fuel depth (skip_ws rest1)) as [v rest2|x] eqn:Hv;
      scanned_absurd.
    apply IHv in Hv. pose proof (skip_ws_length rest1) as Hw1.
    pose proof (skip_ws_length rest2) as Hw2.
    destruct (skip_ws rest2) as [|c2 rest3]; scanned_absurd. simpl in Hw2.
    destruct (PyStr.code c2 =? 125)%Z.
    { intros H; inversion H; subst; lia. }
    destruct (PyStr.code c2 =? 44)%Z; scanned_absurd.
    pose proof (skip_ws_length rest3) as Hw3.
    destruct (skip_ws rest3) as [|c3 rest4]; scanned_absurd. simpl in Hw3.
    destruct (PyStr.code c3 =? 34)%Z; scanned_absurd.
    intros H. apply scan_map_scanned in H as (y & Hy & _).
    apply IHo in Hy. lia.
Qed.

Lemma scan_fuel (fuel : nat) :
  (forall depth s, 2 * String.length s + 1 <= fuel ->
     scan_once fuel depth s <> Failed OutOfFuel) /\
  (forall depth s, 2 * String.length s + 2 <= fuel ->
     array_items fuel depth s <> Failed OutOfFuel) /\
  (forall depth s, 2 * String.length s + 2 <= fuel ->
     object_items fuel depth s <> Failed OutOfFuel).
Proof.
  induction fuel as [|fuel (IHv & IHa & IHo)];
    [repeat split; intros; lia|].
  destruct (scan_shrinks fuel) as (Sv & Sa & So).
  repeat split.
  - intros depth s Hf. simpl.
    destruct s as [|c s0]; [discriminate|]. simpl in Hf.
    destruct (PyStr.code c =? 34)%Z.
    { intros H. apply scan_map_fuel in H. now apply scanstring_fuel in H. }
    destruct (PyStr.code c =? 123)%Z.
    { destruct depth as [|depth]; [discriminate|].
      pose proof (skip_ws_length s0) as Hw.
      destruct (skip_ws s0) as [|c1 rest1]; [discriminate|]. simpl in Hw.
      destruct (PyStr.code c1 =? 125)%Z; [discriminate|].
      destruct (PyStr.code c1 =? 34)%Z; [|discriminate].
      intros H. apply scan_map_fuel in H. apply IHo in H; [auto|lia]. }
    destruct (PyStr.code c =? 91)%Z.
    { destruct depth as [|depth]; [discriminate|].
      pose proof (skip_ws_length s0) as Hw.
      destruct (skip_ws s0) as [|c1 rest1]; [discriminate|]. simpl in Hw.
      destruct (PyStr.code c1 =? 93)%Z; [discriminate|].
      intros H. apply scan_map_fuel in H. apply IHa in H; [auto|simpl; lia]. }
    apply scan_scalar_fuel.
  - intros depth s Hf. simpl.
    destruct (scan_once fuel depth s) as [v r|x] eqn:Hv.
    + apply Sv in Hv.
      pose proof (skip_ws_length r) as Hw.
      destruct (skip_ws r) as [|c rest1]; [discriminate|]. simpl in Hw.
      destruct (PyStr.code c =? 93)%Z; [discriminate|].
      destruct (PyStr.code c =? 44)%Z; [|discriminate].
      intros H. apply scan_map_fuel in H.
      pose proof (skip_ws_length rest1).
      apply IHa in H; [auto|lia].
    + intros E. inversion E; subst. apply IHv in Hv; [contradiction|lia].
  - intros depth s Hf. simpl.
    destruct (scanstring s) as [key r|x] eqn:Hk.
    + apply scanstring_shrinks in Hk.
      pose proof (skip_ws_length r) as Hw.
      destruct (skip_ws r) as [|c rest1]; [discriminate|]. simpl in Hw.
      destruct (PyStr.code c =? 58)%Z; [|discriminate].
      pose proof (skip_ws_length rest1) as Hw1.
      destruct (scan_once fuel depth (skip_ws rest1)) as [v rest2|y] eqn:Hv.
      * apply Sv in Hv.
        pose proof (skip_ws_length rest2) as Hw2.
        destruct (skip_ws rest2) as [|c2 rest3]; [discriminate|]. simpl in Hw2.
        destruct (PyStr.code c2 =? 125)%Z; [discriminate|].
        destruct (PyStr.code c2 =? 44)%Z; [|discriminate].
        pose proof (skip_ws_length rest3) as Hw3.
        destruct (skip_ws rest3) as [|c3 rest4]; [discriminate|]. simpl in Hw3.
        destruct (PyStr.code c3 =? 34)%Z; [|discriminate].
        intros H. apply scan_map_fuel in H. apply IHo in H; [auto|lia].
      * intros E. inversion E; subst. apply IHv in Hv; [contradiction|lia].
    + intros E. inversion E; subst. now apply scanstring_fuel in Hk.
Qed.

(** [json.loads] answers on every text, with a value or with one of its
    three exceptions: the fuel of the embedding is never the reason. *)
Lemma loads_never_exhausted (room : nat) (text : string) :
  loads room text <> Exhausted.
Proof.
  unfold loads.
  destruct (scan_once (fuel_for text) room (skip_ws text)) as [v rest|x] eqn:H.
  - destruct (skip_ws rest); discriminate.
  - destruct x; try discriminate.
    exfalso. revert H. apply (scan_fuel (fuel_for text)).
    pose proof (skip_ws_length text). unfold fuel_for. lia.
Qed.

(** The only failure of [py_scanstring] is a decoding error. *)
Lemma scan_pieces_decode_only (n : nat) :
  forall s x, String.length s <= n ->
    scan_pieces s = Failed x -> x = DecodeError.
Proof.
  induction n as [|n IH]; intros s x Hn.
  - destruct s; simpl in *; [|lia]. intros H; inversion H; reflexivity.
  - destruct s as [|c rest]; simpl; [intros H; inversion H; reflexivity|].
    simpl in Hn.
    destruct (PyStr.code c =? 34)%Z; [discriminate|].
    destruct (PyStr.code c =? 92)%Z.
    + destruct rest as [|e rest1]; [intros H; inversion H; reflexivity|].
      simpl in Hn.
      destruct (PyStr.code e =? 117)%Z.
      * destruct rest1 as [|h1 [|h2 [|h3 [|h4 rest2]]]];
          try (intros H; inversion H; reflexivity).
        simpl in Hn.
        destruct (hex4 h1 h2 h3 h4); [|intros H; inversion H; reflexivity].
        intros H. apply scan_map_fuel in H. apply (IH rest2); [lia|exact H].
      * destruct (simple_escape e); [|intros H; inversion H; reflexivity].
        intros H. apply scan_map_fuel in H. apply (IH rest1); [lia|exact H].
    + destruct (PyStr.code c <? 32)%Z; [intros H; inversion H; reflexivity|].
      intros H. apply scan_map_fuel in H. apply (IH rest); [lia|exact H].
Qed.

Lemma scanstring_decode_only (s : string) (x : failure) :
  scanstring s = Failed x -> x = DecodeError.
Proof.
  unfold scanstring. intros H. apply scan_map_fuel in H.
  exact (scan_pieces_decode_only (String.length s) s x (le_n _) H).
Qed.

(** [int] refuses a text only when it has more digits than the limit. *)
Lemma match_number_limit (s : string) (r : scan json) (d : nat) :
  match_number s = Some r ->
  r = Failed (IntTooLong d) ->
  (int_max_str_digits < Z.of_nat d)%Z.
Proof.
  unfold match_number.
  destruct (match s with
            | String c rest =>
                if (PyStr.code c =? 45)%Z then (true, rest) else (false, s)
            | EmptyString => (false, s)
            end) as [neg s1].
  destruct (match_int s1) as [[i s2]|]; [|discriminate].
  destruct (match_frac s2) as [f s3].
  destruct (match_exp s3) as [e s4].
  destruct f, e;
    try (intros Hr E; subst r; discriminate Hr).
  destruct (Z.ltb_spec int_max_str_digits (Z.of_nat (String.length i)))
    as [Hlong|Hshort];
    intros Hr E; subst r; [|discriminate Hr].
  inversion Hr; subst. assumption.
Qed.

Lemma scan_scalar_limit (s : string) (d : nat) :
  scan_scalar s = Failed (IntTooLong d) ->
  (int_max_str_digits < Z.of_nat d)%Z.
Proof.
  unfold scan_scalar.
  repeat match goal with
         | |- context [strip_prefix ?p s] =>
             destruct (strip_prefix p s); [discriminate|]
         | |- context [match_number s] =>
             let H := fresh "H" in
             destruct (match_number s) as [r|] eqn:H;
             [exact (match_number_limit s r d H)|]
         end.
  discriminate.
Qed.

Lemma scan_limit (fuel : nat) (d : nat) :
  (forall depth s, scan_once fuel depth s = Failed (IntTooLong d) ->
     (int_max_str_digits < Z.of_nat d)%Z) /\
  (forall depth s, array_items fuel depth s = Failed (IntTooLong d) ->
     (int_max_str_digits < Z.of_nat d)%Z) /\
  (forall depth s, object_items fuel depth s = Failed (IntTooLong d) ->
     (int_max_str_digits < Z.of_nat d)%Z).
Proof.
  induction fuel as [|fuel (IHv & IHa & IHo)];
    [repeat split; intros; discriminate|].
  repeat split.
  - intros depth s. simpl.
    destruct s as [|c s0]; [discriminate|].
    destruct (PyStr.code c =? 34)%Z.
    { intros H. apply scan_map_fuel in H.
      apply scanstring_decode_only in H. discriminate H. }
    destruct (PyStr.code c =? 123)%Z.
    { destruct depth as [|depth]; [discriminate|].
      destruct (skip_ws s0) as [|c1 rest1]; [discriminate|].
      destruct (PyStr.code c1 =? 125)%Z; [discriminate|].
      destruct (PyStr.code c1 =? 34)%Z; [|discriminate].
      intros H. apply scan_map_fuel in H. now apply IHo in H. }
    destruct (PyStr.code c =? 91)%Z.
    { destruct depth as [|depth]; [discriminate|].
      destruct (skip_ws s0) as [|c1 rest1]; [discriminate|].
      destruct (PyStr.code c1 =? 93)%Z; [discriminate|].
      intros H. apply scan_map_fuel in H. now apply IHa in H. }
    apply scan_scalar_limit.
  - intros depth s. simpl.
    destruct (scan_once fuel depth s) as [v r|x] eqn:Hv.
    + destruct (skip_ws r) as [|c rest1]; [discriminate|].
      destruct (PyStr.code c =? 93)%Z; [discriminate|].
      destruct (PyStr.code c =? 44)%Z; [|discriminate].
      intros H. apply scan_map_fuel in H. now apply IHa in H.
    + intros E. inversion E; subst. now apply IHv in Hv.
  - intros depth s. simpl.
    destruct (scanstring s) as [key r|x] eqn:Hk.
    + destruct (skip_ws r) as [|c rest1]; [discriminate|].
      destruct (PyStr.code c =? 58)%Z; [|discriminate].
      destruct (scan_once fuel depth (skip_ws rest1)) as [v rest2|y] eqn:Hv.
      * destruct (skip_ws rest2) as [|c2 rest3]; [discriminate|].
        destruct (PyStr.code c2 =? 125)%Z; [discriminate|].
        destruct (PyStr.code c2 =? 44)%Z; [|discriminate].
        destruct (skip_ws rest3) as [|c3 rest4]; [discriminate|].
        destruct (PyStr.code c3 =? 34)%Z; [|discriminate].
        intros H. apply scan_map_fuel in H. now apply IHo in H.
      * intros E. inversion E; subst. now apply IHv in Hv.
    + intros E. inversion E; subst.
      apply scanstring_decode_only in Hk. discriminate Hk.
Qed.

(** [json.loads] raises the [ValueError] of [int] only on a text with
    an integer of more than [int_max_str_digits] digits. *)
Lemma loads_integer_too_long (room : nat) (text : string) (digits : nat) :
  loads room text = IntegerTooLong digits ->
  (int_max_str_digits < Z.of_nat digits)%Z.
Proof.
  unfold loads.
  destruct (scan_once (fuel_for text) room (skip_ws text)) as [v rest|x] eqn:H.
  - destruct (skip_ws rest); discriminate.
  - destruct x; try discriminate.
    intros E; inversion E; subst.
    exact (proj1 (scan_limit (fuel_for text) digits) room (skip_ws text) H).
Qed.

End JsonFacts.

(** ** The reflection judge *)

Section ReflectionFacts.
Import Py Json Reflection.

Variable Message : Type.
Variable convert_messages_to_llm_messages :
  list Message -> string -> result (list LLMMessage).
Variable format_goal : string -> string -> result string.
Variable recursion_room : nat.

Local Abbreviation check := (check_termination Message convert_messages_to_llm_messages format_goal recursion_room).
Local Abbreviation conversation := (entire_conversation Message convert_messages_to_llm_messages format_goal).
Local Abbreviation answers := (response_text Message convert_messages_to_llm_messages format_goal).

(** When the judge is asked and the conversation could be built, the
    verdict is what [judge] makes of the model's answer, and the model
    was called once. *)
Lemma check_termination_asks (self : ReflectionTerminationManager)
    (messages : list Message) (sent : list LLMMessage) :
  (forall m, _max_turns self = Some m -> _turns self < m) ->
  gate_open self ->
  messages <> [] ->
  conversation self messages = Ok sent ->
  check self messages
  = (match _model_client self sent with
     | Ok response => judge recursion_room response
     | Raise e => Raise e
     end,
     [sent]).
Proof.
  intros Hmax Hmin Hne Hsent. unfold check_termination, gate_open in *.
  rewrite Hsent.
  destruct (_max_turns self) as [m|] eqn:Em.
  - specialize (Hmax m eq_refl).
    destruct (Z.leb_spec m (_turns self)); [lia|].
    destruct (Z.leb_spec (_turns self) (_min_turns self)); [lia|].
    destruct messages; [congruence|]. reflexivity.
  - destruct (Z.leb_spec (_turns self) (_min_turns self)); [lia|].
    destruct messages; [congruence|]. reflexivity.
Qed.

Lemma after_turns_turns (k : nat) (self : ReflectionTerminationManager) :
  _turns (after_turns k self) = _turns self + Z.of_nat k
  /\ _max_turns (after_turns k self) = _max_turns self
  /\ _min_turns (after_turns k self) = _min_turns self.
Proof.
  induction k as [|k (IHt & IHmax & IHmin)]; [simpl; repeat split; lia|].
  cbn [after_turns]. unfold record_turn_taken, set_turns. cbn.
  repeat split; try assumption. lia.
Qed.

Lemma init_ok mc goal sm max_turns n self :
  init mc goal sm max_turns n = Ok self ->
  _turns self = 0 /\ _max_turns self = max_turns /\ _min_turns self = n
  /\ 1 <= n /\ (forall m, max_turns = Some m -> n <= m).
Proof.
  unfold init. destruct (Z.ltb_spec n 1); [discriminate|].
  destruct max_turns as [m|].
  - destruct (Z.ltb_spec m n); [discriminate|].
    intros E; inversion E; subst; cbn.
    repeat split; try lia. intros m' Hm; inversion Hm; subst; assumption.
  - intros E; inversion E; subst; cbn.
    repeat split; try lia. intros m' Hm; discriminate.
Qed.

(** C1, as amended.  When the judge is asked and the model answers with
    a text: if [json.loads] rejects the text with [JSONDecodeError] the
    verdict is [NotTerminated("Failed to parse response")]; if
    [json.loads] returns a JSON object in which [is_done] is not a boolean
    or [reason] is not a string (missing fields included), the verdict is
    [NotTerminated] carrying the object's [reason] as it is, [None] when
    it is missing.  No exception is raised in either case. *)
Theorem malformed_judgment_keeps_going
    (self : ReflectionTerminationManager) (messages : list Message)
    (text : string) :
  (forall m, _max_turns self = Some m -> _turns self < m) ->
  gate_open self ->
  messages <> [] ->
  answers self messages text ->
  (loads recursion_room text = JSONDecodeError ->
   fst (check self messages)
   = Ok (NotTerminated (JString "Failed to parse response")))
  /\ (forall pairs,
        loads recursion_room text = Loaded (JObject pairs) ->
        ~ (is_bool (dict_get "is_done" pairs)
           /\ is_str (dict_get "reason" pairs)) ->
        fst (check self messages)
        = Ok (NotTerminated (dict_get "reason" pairs))).
Proof.
  intros Hmax Hmin Hne (sent & Hsent & Htext).
  rewrite (check_termination_asks self messages sent Hmax Hmin Hne Hsent).
  rewrite Htext. cbn [fst judge].
  split.
  - intros ->. reflexivity.
  - intros pairs -> Hbad.
    destruct (dict_get "is_done" pairs) eqn:Ed; try reflexivity.
    destruct (dict_get "reason" pairs) eqn:Er; try reflexivity.
    exfalso. apply Hbad. split; [exists b|exists s]; reflexivity.
Qed.

(** C2, as amended.  For a manager built with [min_turns = n], as long
    as no more than [n] turns were recorded, [check_termination] answers
    [NotTerminated] without asking the model, except when [max_turns]
    is [n] as well and exactly [n] turns were recorded: the limit of
    turns is tested first and then answers
    [Terminated(MAX_TURNS_REACHED)]. *)
Theorem min_turns_gate mc goal sm (max_turns : option Z) (n : Z)
    (self : ReflectionTerminationManager) (k : nat)
    (messages : list Message) :
  init mc goal sm max_turns n = Ok self ->
  Z.of_nat k <= n ->
  check (after_turns k self) messages
  = if match max_turns with
       | Some m => (m =? n) && (Z.of_nat k =? n)
       | None => false
       end
    then (Ok (Terminated MAX_TURNS_REACHED "Max turns reached."), [])
    else (Ok (NotTerminated JNull), []).
Proof.
  intros Hinit Hk.
  apply init_ok in Hinit as (Ht & Hmax & Hmin & Hn & Hle).
  destruct (after_turns_turns k self) as (Et & Emax & Emin).
  unfold check_termination. rewrite Et, Emax, Emin, Ht, Hmax, Hmin.
  destruct max_turns as [m|].
  - specialize (Hle m eq_refl).
    destruct (Z.leb_spec m (0 + Z.of_nat k)).
    + replace (m =? n) with true by (symmetry; apply Z.eqb_eq; lia).
      replace (Z.of_nat k =? n) with true by (symmetry; apply Z.eqb_eq; lia).
      reflexivity.
    + replace ((m =? n) && (Z.of_nat k =? n)) with false.
      * destruct (Z.leb_spec (0 + Z.of_nat k) n); [reflexivity|lia].
      * symmetry. apply andb_false_iff.
        destruct (Z.eqb_spec m n); [right|left; reflexivity].
        apply Z.eqb_neq. lia.
  - destruct (Z.leb_spec (0 + Z.of_nat k) n); [reflexivity|lia].
Qed.

(** C8.  When the judge is asked and the model's text is a JSON object
    whose [is_done] is a boolean and whose [reason] is a string, the
    verdict is [Terminated(GOAL_REACHED, reason)] when [is_done] is true
    and [NotTerminated(reason)] when it is false. *)
Theorem well_formed_judgment_verdict
    (self : ReflectionTerminationManager) (messages : list Message)
    (text : string) (pairs : list (string * json)) (b : bool) (r : string) :
  (forall m, _max_turns self = Some m -> _turns self < m) ->
  gate_open self ->
  messages <> [] ->
  answers self messages text ->
  loads recursion_room text = Loaded (JObject pairs) ->
  dict_get "is_done" pairs = JBool b ->
  dict_get "reason" pairs = JString r ->
  fst (check self messages)
  = Ok (if b then Terminated GOAL_REACHED r else NotTerminated (JString r)).
Proof.
  intros Hmax Hmin Hne (sent & Hsent & Htext) Hload Hd Hr.
  rewrite (check_termination_asks self messages sent Hmax Hmin Hne Hsent).
  rewrite Htext. cbn [fst judge].
  rewrite Hload, Hd, Hr. destruct b; reflexivity.
Qed.

(** C10.  With the limit of turns not reached and the minimum of turns
    passed, an empty history gives [NotTerminated] and the model client
    is not called. *)
Theorem empty_history_not_judged (self : ReflectionTerminationManager) :
  (forall m, _max_turns self = Some m -> _turns self < m) ->
  gate_open self ->
  check self [] = (Ok (NotTerminated JNull), []).
Proof.
  intros Hmax Hmin. unfold check_termination, gate_open in *.
  destruct (_max_turns self) as [m|] eqn:Em.
  - specialize (Hmax m eq_refl).
    destruct (Z.leb_spec m (_turns self)); [lia|].
    destruct (Z.leb_spec (_turns self) (_min_turns self)); [lia|].
    reflexivity.
  - destruct (Z.leb_spec (_turns self) (_min_turns self)); [lia|].
    reflexivity.
Qed.

End ReflectionFacts.

Section ReflectionExamples.
Import Py Json Reflection.

Local Abbreviation check := (check_termination string Sample.convert Sample.format_goal Sample.room).
Local Abbreviation answers := (response_text string Sample.convert Sample.format_goal).

(** The sample manager is answered with the text it was built with. *)
Lemma sample_answers (text : string) :
  answers (Sample.asked text) Sample.history text.
Proof.
  unfold response_text.
  destruct (entire_conversation string Sample.convert Sample.format_goal
              (Sample.asked text) Sample.history) as [sent|e] eqn:E.
  - exists sent. split; reflexivity.
  - vm_compute in E. discriminate E.
Defined.

Lemma malformed_judgment_keeps_going_witness :
  loads Sample.room Sample.mistyped_text
  = Loaded (JObject [("is_done", JString "yes")])
  /\ fst (check (Sample.asked Sample.mistyped_text) Sample.history)
     = Ok (NotTerminated JNull).
Proof.
  assert (Hload : loads Sample.room Sample.mistyped_text
                  = Loaded (JObject [("is_done", JString "yes")]))
    by (vm_compute; reflexivity).
  split; [exact Hload|].
  refine (proj2 (malformed_judgment_keeps_going string Sample.convert
                   Sample.format_goal Sample.room
                   (Sample.asked Sample.mistyped_text)
                   Sample.history Sample.mistyped_text _ _ _ _)
            [("is_done", JString "yes")] Hload _).
  - intros m H; discriminate H.
  - reflexivity.
  - discriminate.
  - apply sample_answers.
  - intros [[b Hb] _]. discriminate Hb.
Defined.

(** C1 as stated fails: the object [{}] has neither field, and the
    verdict [NotTerminated(None)] carries no explanation. *)
Lemma missing_fields_no_explanation :
  loads Sample.room "{}" = Loaded (JObject [])
  /\ fst (check (Sample.asked "{}") Sample.history) = Ok (NotTerminated JNull)
  /\ ~ keeps_going_with_explanation
         (fst (check (Sample.asked "{}") Sample.history)).
Proof.
  split; [vm_compute; reflexivity|].
  assert (E : fst (check (Sample.asked "{}") Sample.history)
              = Ok (NotTerminated JNull)) by (vm_compute; reflexivity).
  split; [exact E|].
  rewrite E. intros [explanation H]. discriminate H.
Qed.

(** A JSON text that is not an object has no [get]: the exception
    [AttributeError] is not among those the [try] block catches. *)
Remark non_object_judgment_raises :
  loads Sample.room "[]" = Loaded (JArray [])
  /\ fst (check (Sample.asked "[]") Sample.history) = Raise AttributeError.
Proof. split; vm_compute; reflexivity. Qed.

Remark unparsable_judgment_example :
  fst (check (Sample.asked "not json") Sample.history)
  = Ok (NotTerminated (JString "Failed to parse response")).
Proof. vm_compute; reflexivity. Qed.

(** Nor does the [try] block catch what else [json.loads] raises: the
    [ValueError] of an integer of 4301 digits, also in a field the judge
    does not read, and the [RecursionError] of containers nested deeper
    than the interpreter has room for. *)
Remark long_integer_judgment_raises :
  loads Sample.room (Sample.long_integer_text 4301) = IntegerTooLong 4301
  /\ fst (check (Sample.asked (Sample.long_integer_text 4301)) Sample.history)
     = Raise (ValueError "Exceeds the limit (4300 digits) for integer string conversion: value has 4301 digits; use sys.set_int_max_str_digits() to increase the limit")
  /\ fst (check (Sample.asked (Sample.long_integer_text 4300)) Sample.history)
     = Ok (Terminated GOAL_REACHED "done").
Proof. repeat split; vm_compute; reflexivity. Qed.

Remark deep_nesting_judgment_raises :
  loads 3 "[[[[" = NestingTooDeep
  /\ loads 4 "[[[[" = JSONDecodeError
  /\ fst (check_termination string Sample.convert Sample.format_goal 3
            (Sample.asked "[[[[") Sample.history)
     = Raise RecursionError.
Proof. repeat split; vm_compute; reflexivity. Qed.

Lemma min_turns_gate_witness :
  init (Sample.answering "{}") "print hello" SYSTEM_MESSAGE (Some 5) 3
  = Ok (Sample.manager "{}" (Some 5) 3 0)
  /\ check (after_turns 2 (Sample.manager "{}" (Some 5) 3 0)) Sample.history
     = (Ok (NotTerminated JNull), []).
Proof.
  split; [reflexivity|].
  apply (min_turns_gate string Sample.convert Sample.format_goal Sample.room
           (Sample.answering "{}") "print hello" SYSTEM_MESSAGE (Some 5) 3
           (Sample.manager "{}" (Some 5) 3 0) 2 Sample.history).
  - reflexivity.
  - simpl; lia.
Defined.

(** C2 as stated fails: with [min_turns = max_turns = 1] and one turn
    recorded the gate is still closed ([1 <= 1]), and the verdict is
    [Terminated(MAX_TURNS_REACHED)]. *)
Lemma max_turns_fires_inside_gate :
  init (Sample.answering "{}") "print hello" SYSTEM_MESSAGE (Some 1) 1
  = Ok (Sample.manager "{}" (Some 1) 1 0)
  /\ _turns (after_turns 1 (Sample.manager "{}" (Some 1) 1 0))
     <= _min_turns (after_turns 1 (Sample.manager "{}" (Some 1) 1 0))
  /\ fst (check (after_turns 1 (Sample.manager "{}" (Some 1) 1 0))
            Sample.history)
     = Ok (Terminated MAX_TURNS_REACHED "Max turns reached.").
Proof.
  split; [reflexivity|]. split; [simpl; lia|]. reflexivity.
Qed.

Lemma well_formed_judgment_verdict_witness :
  loads Sample.room Sample.done_text
  = Loaded (JObject [("is_done", JBool true); ("reason", JString "done")])
  /\ fst (check (Sample.asked Sample.done_text) Sample.history)
     = Ok (Terminated GOAL_REACHED "done").
Proof.
  assert (Hload : loads Sample.room Sample.done_text
                  = Loaded (JObject [("is_done", JBool true);
                                     ("reason", JString "done")]))
    by (vm_compute; reflexivity).
  split; [exact Hload|].
  apply (well_formed_judgment_verdict string Sample.convert
           Sample.format_goal Sample.room (Sample.asked Sample.done_text)
           Sample.history Sample.done_text
           [("is_done", JBool true); ("reason", JString "done")]
           true "done").
  - intros m H; discriminate H.
  - reflexivity.
  - discriminate.
  - apply sample_answers.
  - exact Hload.
  - reflexivity.
  - reflexivity.
Defined.

Lemma empty_history_not_judged_witness :
  check (Sample.asked Sample.done_text) [] = (Ok (NotTerminated JNull), []).
Proof.
  apply (empty_history_not_judged string Sample.convert Sample.format_goal
           Sample.room (Sample.asked Sample.done_text)).
  - intros m H; discriminate H.
  - reflexivity.
Defined.

End ReflectionExamples.

(** ** The table [chat_history] *)

Section ThreadStoreFacts.
Import ThreadStore.

Local Open Scope list_scope.

Lemma at_key_true (root i : Z) (r : row) :
  at_key root i r = true <-> root_id r = root /\ id r = i.
Proof.
  unfold at_key. rewrite andb_true_iff, !Z.eqb_eq. tauto.
Qed.

Lemma fetch_insert (root root' i : Z) (ro co : string) (t : table) :
  fetch_chat_history root (insert root' i ro co t)
  = fetch_chat_history root t
    ++ (if root' =? root then [mk_row root' i ro co] else []).
Proof.
  unfold fetch_chat_history, insert. rewrite filter_app. simpl.
  unfold in_root at 2. simpl. reflexivity.
Qed.

Lemma max_of_app (l : list Z) (x : Z) :
  max_of (l ++ [x])
  = Some (match max_of l with Some m => Z.max m x | None => x end).
Proof.
  induction l as [|y l IH]; simpl; [reflexivity|].
  rewrite IH. destruct (max_of l); f_equal; lia.
Qed.

Lemma max_of_none (l : list Z) : max_of l = None -> l = [].
Proof.
  destruct l as [|x l]; [reflexivity|]. simpl.
  destruct (max_of l); discriminate.
Qed.

Lemma max_of_some (l : list Z) (m : Z) :
  max_of l = Some m -> In m l /\ forall x, In x l -> x <= m.
Proof.
  revert m; induction l as [|y l IH]; simpl; [discriminate|].
  intros m. destruct (max_of l) as [m'|] eqn:E.
  - intros H; inversion H; subst; clear H.
    destruct (IH m' eq_refl) as [Hin Hle]. split.
    + destruct (Z.max_spec y m') as [[_ ->]|[_ ->]]; auto.
    + intros x [->|Hx]; [lia|]. apply Hle in Hx. lia.
  - intros H; inversion H; subst; clear H.
    apply max_of_none in E; subst. split; [auto|].
    intros x [->|[]]; lia.
Qed.

(** What [SELECT MAX(id)] stands for: no row in the thread, or the id of
    one of its rows that no other exceeds. *)
Lemma select_max_id_spec (root : Z) (t : table) :
  match select_max_id root t with
  | None => fetch_chat_history root t = []
  | Some m =>
      (exists r, In r (fetch_chat_history root t) /\ id r = m)
      /\ forall r, In r (fetch_chat_history root t) -> id r <= m
  end.
Proof.
  unfold select_max_id.
  destruct (max_of (map id (fetch_chat_history root t))) as [m|] eqn:E.
  - apply max_of_some in E as [Hin Hle]. split.
    + apply in_map_iff in Hin as (r & Hr & Hin). eauto.
    + intros r Hr. apply Hle. now apply in_map.
  - apply max_of_none in E. now apply map_eq_nil in E.
Qed.

Lemma in_fetch (root : Z) (t : table) (r : row) :
  In r (fetch_chat_history root t) <-> In r t /\ root_id r = root.
Proof.
  unfold fetch_chat_history, in_root. rewrite filter_In, Z.eqb_eq. tauto.
Qed.

(** The id given when none is passed is not in use in the thread. *)
Lemma auto_id_fresh (root : Z) (t : table) :
  let i := match select_max_id root t with Some m => m + 1 | None => 0 end in
  filter (at_key root i) t = [].
Proof.
  intros i. destruct (filter (at_key root i) t) as [|r l] eqn:E; [reflexivity|].
  exfalso.
  assert (Hr : In r (filter (at_key root i) t)) by (rewrite E; now left).
  apply filter_In in Hr as [Hin Hk]. apply at_key_true in Hk as [Hroot Hid].
  pose proof (select_max_id_spec root t) as Hs. subst i.
  destruct (select_max_id root t) as [m|].
  - destruct Hs as [_ Hle]. specialize (Hle r (proj2 (in_fetch root t r) (conj Hin Hroot))).
    lia.
  - assert (Hf : In r (fetch_chat_history root t))
      by (apply in_fetch; auto).
    rewrite Hs in Hf. destruct Hf.
Qed.

Lemma filter_nil_not_in {A} (p : A -> bool) (l : list A) :
  filter p l = [] -> forall x, In x l -> p x = false.
Proof.
  intros E x Hx. destruct (p x) eqn:Hp; [|reflexivity].
  assert (In x (filter p l)) by (apply filter_In; auto).
  rewrite E in H. destruct H.
Qed.

Lemma fetch_row_insert_fresh (root i : Z) (ro co : string) (t : table) :
  filter (at_key root i) t = [] ->
  fetch_row i root (insert root i ro co t) = Some (mk_row root i ro co).
Proof.
  intros E. unfold fetch_row, insert. rewrite filter_app, E. simpl.
  unfold at_key. simpl. rewrite !Z.eqb_refl. reflexivity.
Qed.

Lemma fetch_row_insert_other (root i root' i' : Z) (ro co : string) (t : table) :
  (root', i') <> (root, i) ->
  fetch_row i' root' (insert root i ro co t) = fetch_row i' root' t.
Proof.
  intros Hne. unfold fetch_row, insert. rewrite filter_app. simpl.
  replace (at_key root' i' _) with false.
  - rewrite app_nil_r. reflexivity.
  - symmetry. unfold at_key. simpl. apply andb_false_iff.
    destruct (Z.eqb_spec root root'); [|now left].
    destruct (Z.eqb_spec i i'); [|now right].
    subst. now contradiction Hne.
Qed.

Lemma update_keys (ro co : string) (root i : Z) (t : table) :
  keys (update ro co root i t) = keys t.
Proof.
  unfold keys, update. rewrite map_map. apply map_ext.
  intros r. destruct (at_key root i r); reflexivity.
Qed.

Lemma filter_update (ro co : string) (root i root' i' : Z) (t : table) :
  filter (at_key root' i') (update ro co root i t)
  = update ro co root i (filter (at_key root' i') t).
Proof.
  unfold update. induction t as [|r t IH]; simpl; [reflexivity|].
  replace (at_key root' i' (if at_key root i r then _ else r))
    with (at_key root' i' r) by (destruct (at_key root i r); reflexivity).
  destruct (at_key root' i' r); simpl; rewrite IH; reflexivity.
Qed.

Lemma fetch_row_update_same (ro co : string) (root i : Z) (t : table) (r0 : row) :
  fetch_row i root t = Some r0 ->
  fetch_row i root (update ro co root i t) = Some (mk_row root i ro co).
Proof.
  unfold fetch_row. rewrite filter_update.
  destruct (filter (at_key root i) t) as [|r l] eqn:E; [discriminate|].
  intros _. assert (Hr : In r (filter (at_key root i) t)) by (rewrite E; now left).
  apply filter_In in Hr as [_ Hk]. simpl. rewrite Hk.
  apply at_key_true in Hk as [<- <-]. reflexivity.
Qed.

Lemma update_other (ro co : string) (root i : Z) (l : list row) :
  (forall r, In r l -> at_key root i r = false) ->
  update ro co root i l = l.
Proof.
  intros H. unfold update. rewrite <- (map_id l) at 2. apply map_ext_in.
  intros r Hr. rewrite (H r Hr). reflexivity.
Qed.

Lemma fetch_row_update_other (ro co : string) (root i root' i' : Z) (t : table) :
  (root', i') <> (root, i) ->
  fetch_row i' root' (update ro co root i t) = fetch_row i' root' t.
Proof.
  intros Hne. unfold fetch_row. rewrite filter_update, update_other; [reflexivity|].
  intros r Hr. apply filter_In in Hr as [_ Hk].
  apply at_key_true in Hk as [<- <-].
  destruct (at_key root i r) eqn:E; [|reflexivity].
  apply at_key_true in E as [<- <-]. now contradiction Hne.
Qed.

Lemma fetch_update (ro co : string) (root i root' : Z) (t : table) :
  fetch_chat_history root' (update ro co root i t)
  = update ro co root i (fetch_chat_history root' t).
Proof.
  unfold fetch_chat_history, update. induction t as [|r t IH]; simpl; [reflexivity|].
  replace (in_root root' (if at_key root i r then _ else r))
    with (in_root root' r) by (destruct (at_key root i r); reflexivity).
  destruct (in_root root' r); simpl; rewrite IH; reflexivity.
Qed.

Lemma select_max_id_insert (root i : Z) (ro co : string) (t : table) :
  select_max_id root (insert root i ro co t)
  = Some (match select_max_id root t with Some m => Z.max m i | None => i end).
Proof.
  unfold select_max_id. rewrite fetch_insert, Z.eqb_refl, map_app. simpl.
  apply max_of_app.
Qed.

Lemma run_append_auto (root : Z) (rc : string * string) (t : table) :
  run_append (auto_append root rc) t
  = (match select_max_id root t with Some m => m + 1 | None => 0 end,
     insert root (match select_max_id root t with Some m => m + 1 | None => 0 end)
       (fst rc) (snd rc) t).
Proof. reflexivity. Qed.

(** Calls without an id, on a thread whose ids so far are [0 .. k-1]. *)
Lemma run_auto_appends (root : Z) (calls : list (string * string)) :
  forall (t : table) (k : nat),
    select_max_id root t
    = match k with O => None | S k' => Some (Z.of_nat k') end ->
    fst (run_appends (map (auto_append root) calls) t)
    = map Z.of_nat (seq k (List.length calls))
    /\ fetch_chat_history root
         (snd (run_appends (map (auto_append root) calls) t))
       = fetch_chat_history root t ++ numbered root k calls.
Proof.
  induction calls as [|rc calls IH]; intros t k Hk; cbn [map run_appends].
  - simpl. rewrite app_nil_r. split; reflexivity.
  - rewrite run_append_auto.
    assert (Ei : match select_max_id root t with
                 | Some m => m + 1
                 | None => 0
                 end = Z.of_nat k).
    { rewrite Hk. destruct k; lia. }
    rewrite Ei.
    specialize (IH (insert root (Z.of_nat k) (fst rc) (snd rc) t) (S k)).
    destruct (run_appends (map (auto_append root) calls)
                (insert root (Z.of_nat k) (fst rc) (snd rc) t)) as [ids t2].
    simpl in *.
    destruct IH as [IH1 IH2].
    { rewrite select_max_id_insert, Hk. f_equal. destruct k; lia. }
    split; [now rewrite IH1|].
    rewrite IH2, fetch_insert, Z.eqb_refl, <- app_assoc. reflexivity.
Qed.

(** C5.  On a thread without rows, calls of [insert_chat_message] that
    leave the id out return 0, 1, 2, ... in this order and leave in the
    thread exactly the rows of the calls, each at the id returned for it.
    On any table the id given is 0 when the thread has no row and one
    more than the largest id of the thread otherwise, and the row is put
    at that id. *)
Theorem auto_turns_gapless (root : Z) (calls : list (string * string))
    (t : table) :
  fetch_chat_history root t = [] ->
  fst (run_appends (map (auto_append root) calls) t)
  = map Z.of_nat (seq 0 (List.length calls))
  /\ fetch_chat_history root
       (snd (run_appends (map (auto_append root) calls) t))
     = numbered root 0 calls
  /\ (forall (t0 : table) (ro co : string),
        let i := fst (insert_chat_message ro co root None t0) in
        let t1 := snd (insert_chat_message ro co root None t0) in
        ((fetch_chat_history root t0 = [] /\ i = 0)
         \/ (exists r, In r (fetch_chat_history root t0) /\ i = id r + 1
                       /\ forall r', In r' (fetch_chat_history root t0) ->
                                     id r' <= id r))
        /\ fetch_row i root t1 = Some (mk_row root i ro co)
        /\ t1 = t0 ++ [mk_row root i ro co]).
Proof.
  intros Hempty.
  destruct (run_auto_appends root calls t 0) as [H1 H2].
  { unfold select_max_id. rewrite Hempty. reflexivity. }
  split; [exact H1|]. split; [rewrite H2, Hempty; reflexivity|].
  intros t0 ro co. simpl.
  pose proof (select_max_id_spec root t0) as Hs.
  pose proof (auto_id_fresh root t0) as Hfresh. simpl in Hfresh.
  split; [|split; [now apply fetch_row_insert_fresh|reflexivity]].
  destruct (select_max_id root t0) as [m|].
  - right. destruct Hs as [(r & Hr & <-) Hle]. exists r. auto.
  - left. auto.
Qed.

Lemma NoDup_snoc {A} (l : list A) (x : A) :
  NoDup l -> ~ In x l -> NoDup (l ++ [x]).
Proof.
  induction l as [|y l IH]; simpl; intros Hnd Hx.
  - constructor; [intros []|constructor].
  - inversion Hnd as [|? ? Hy Hl]; subst. constructor.
    + rewrite in_app_iff. simpl. intros [H|[H|[]]]; [auto|subst; auto].
    + apply IH; auto.
Qed.

(** The keys stay pairwise distinct under [insert_chat_message]. *)
Lemma insert_chat_message_keys (ro co : string) (root : Z) (i : option Z)
    (t : table) :
  NoDup (keys t) ->
  NoDup (keys (snd (insert_chat_message ro co root i t))).
Proof.
  intros Hnd.
  assert (Hins : forall j, filter (at_key root j) t = [] ->
                           NoDup (keys (insert root j ro co t))).
  { intros j Hj. unfold insert, keys. rewrite map_app. simpl.
    apply NoDup_snoc; [exact Hnd|].
    intros Hin. apply in_map_iff in Hin as (r & Hr & Hin).
    pose proof (filter_nil_not_in _ _ Hj r Hin) as Hk.
    inversion Hr; subst. unfold at_key in Hk. rewrite !Z.eqb_refl in Hk.
    discriminate. }
  destruct i as [i|]; simpl.
  - destruct (filter (at_key root i) t) eqn:E; simpl.
    + now apply Hins.
    + now rewrite update_keys.
  - apply Hins. apply auto_id_fresh.
Qed.

Lemma run_appends_keys (ops : list append) :
  forall t, NoDup (keys t) -> NoDup (keys (snd (run_appends ops t))).
Proof.
  induction ops as [|a ops IH]; intros t Hnd; simpl; [exact Hnd|].
  pose proof (insert_chat_message_keys (a_role a) (a_content a) (a_root a)
                (a_id a) t Hnd) as H1.
  unfold run_append.
  destruct (insert_chat_message (a_role a) (a_content a) (a_root a) (a_id a) t)
    as [i t1]. simpl in H1.
  specialize (IH t1 H1).
  destruct (run_appends ops t1) as [ids t2]. exact IH.
Qed.

Lemma fetch_ids_nodup (root : Z) (t : table) :
  NoDup (keys t) -> NoDup (map id (fetch_chat_history root t)).
Proof.
  unfold keys, fetch_chat_history.
  induction t as [|r t IH]; simpl; intros Hnd; [constructor|].
  inversion Hnd as [|k l Hnotin Hnd']; subst.
  unfold in_root at 1. destruct (Z.eqb_spec (root_id r) root) as [E|E]; [|auto].
  simpl. constructor; [|auto].
  intros Hin. apply Hnotin. apply in_map_iff in Hin as (r' & Hid & Hr').
  apply filter_In in Hr' as [Hr' Hroot]. apply Z.eqb_eq in Hroot.
  apply in_map_iff. exists r'. split; [|exact Hr'].
  rewrite Hid. congruence.
Qed.

(** C6.  A call with an id at which the thread has a row returns that id
    and overwrites role and content of the row where it stands: the keys
    of the table are as before, the row read back at the id is the new
    one, every other row reads as before.  After any sequence of calls on
    an empty table no thread has two rows with the same id. *)
Theorem upsert_in_place :
  (forall (t : table) (ro co : string) (root i : Z) (r0 : row),
      fetch_row i root t = Some r0 ->
      fst (insert_chat_message ro co root (Some i) t) = i
      /\ keys (snd (insert_chat_message ro co root (Some i) t)) = keys t
      /\ fetch_row i root (snd (insert_chat_message ro co root (Some i) t))
         = Some (mk_row root i ro co)
      /\ forall root' i', (root', i') <> (root, i) ->
           fetch_row i' root' (snd (insert_chat_message ro co root (Some i) t))
           = fetch_row i' root' t)
  /\ (forall (ops : list append) (root : Z),
        NoDup (map id (fetch_chat_history root (snd (run_appends ops []))))).
Proof.
  split.
  - intros t ro co root i r0 Hrow. pose proof Hrow as Hrow'.
    unfold fetch_row in Hrow. simpl.
    destruct (filter (at_key root i) t) as [|r l] eqn:E; [discriminate|].
    simpl. split; [reflexivity|]. split; [apply update_keys|].
    split; [now apply fetch_row_update_same with (r0 := r0)|].
    intros root' i' Hne. now apply fetch_row_update_other.
  - intros ops root. apply fetch_ids_nodup, run_appends_keys. constructor.
Qed.

End ThreadStoreFacts.

(** ** The rule on empty inputs *)

Section ConsecutiveEmptyFacts.
Import Tui.

Lemma scan_reversed_done (l : list chat_message) (acc : option bool) :
  scan_reversed l 0 acc = acc.
Proof. destruct l; reflexivity. Qed.

Lemma scan_reversed_one (l : list chat_message) :
  scan_reversed l 1 (Some true)
  = match filter is_user l with
    | [] => Some true
    | m :: _ => Some (is_empty m)
    end.
Proof.
  induction l as [|m l IH]; [reflexivity|].
  cbn [scan_reversed filter]. change (1 =? 0) with false. cbv iota.
  fold (is_user m). destruct (is_user m); [|exact IH].
  fold (is_empty m). destruct (is_empty m); [|reflexivity].
  change (1 - 1) with 0. apply scan_reversed_done.
Qed.

Lemma scan_reversed_two (l : list chat_message) :
  scan_reversed l 2 None
  = match filter is_user l with
    | [] => None
    | [m1] => Some (is_empty m1)
    | m1 :: m2 :: _ => Some (is_empty m1 && is_empty m2)
    end.
Proof.
  induction l as [|m l IH]; [reflexivity|].
  cbn [scan_reversed filter]. change (2 =? 0) with false. cbv iota.
  fold (is_user m). destruct (is_user m); [|exact IH].
  fold (is_empty m). destruct (is_empty m).
  - change (2 - 1) with 1. rewrite scan_reversed_one.
    destruct (filter is_user l) as [|m2 l']; reflexivity.
  - destruct (filter is_user l) as [|m2 l']; reflexivity.
Qed.

(** C3, as amended.  The rule answers [(True, "TERMINATE")] exactly when
    there is a [user] message and the most recent [user] messages, two of
    them or the only one there is, all have empty content; otherwise it
    answers [(False, None)]. *)
Theorem consecutive_empty_rule (recipient sender : Agent)
    (messages : list chat_message) :
  terminate_on_consecutive_empty recipient messages sender
  = if most_recent_empty messages
    then (true, Some "TERMINATE")
    else (false, None).
Proof.
  unfold terminate_on_consecutive_empty, most_recent_empty,
    user_messages_backward.
  rewrite scan_reversed_two.
  destruct (filter is_user (rev messages)) as [|m1 [|m2 l]].
  - reflexivity.
  - destruct (is_empty m1); reflexivity.
  - destruct (is_empty m1), (is_empty m2); reflexivity.
Qed.

(** C3 as stated fails: a history whose only [user] message is empty has
    fewer than two [user] messages, and the rule terminates. *)
Lemma single_empty_input_terminates :
  List.length (filter is_user [Sample.said "user" EmptyString]) = 1%nat
  /\ two_most_recent_empty [Sample.said "user" EmptyString] = false
  /\ terminate_on_consecutive_empty Sample.assistant
       [Sample.said "user" EmptyString] Sample.user
     = (true, Some "TERMINATE").
Proof. repeat split. Qed.

Remark consecutive_empty_examples :
  terminate_on_consecutive_empty Sample.assistant
    [Sample.said "user" EmptyString; Sample.said "assistant" "ok";
     Sample.said "user" EmptyString] Sample.user
  = (true, Some "TERMINATE")
  /\ terminate_on_consecutive_empty Sample.assistant
       [Sample.said "user" "hi"] Sample.user
     = (false, None)
  /\ terminate_on_consecutive_empty Sample.assistant
       [Sample.said "user" EmptyString; Sample.said "user" "hi";
        Sample.said "assistant" "ok"] Sample.user
     = (false, None).
Proof. repeat split. Qed.

End ConsecutiveEmptyFacts.

(** ** The hook and the final response *)

Section HookFacts.
Import Py ThreadStore Tui.

Local Open Scope list_scope.

Variable ToolCall : Type.
Variable json_dumps : list ToolCall -> string.

Local Abbreviation hook := (post_snippet_and_record_history ToolCall json_dumps).

Lemma take_len (n : nat) (s : string) : PyStr.len (PyStr.take n s) <= Z.of_nat n.
Proof.
  revert n; induction s as [|c s IH]; intros n; simpl; [lia|].
  destruct (PyStr.is_continuation c) eqn:E; simpl; rewrite ?E.
  - apply IH.
  - destruct n as [|n]; simpl; [lia|]. rewrite E. specialize (IH n). lia.
Qed.

Lemma summarize_bounded (text : string) : PyStr.len (summarize text) <= 100.
Proof. apply (take_len 100). Qed.

(** *** What a call with an id does to the readings of the table *)

Lemma upsert_fetch_row_same (ro co : string) (root i : Z) (t : table) :
  fetch_row i root (snd (insert_chat_message ro co root (Some i) t))
  = Some (mk_row root i ro co).
Proof.
  simpl. destruct (filter (at_key root i) t) as [|r l] eqn:E; simpl.
  - now apply fetch_row_insert_fresh.
  - apply fetch_row_update_same with (r0 := r). unfold fetch_row. now rewrite E.
Qed.

Lemma upsert_fetch_row_other (ro co : string) (root i root' i' : Z) (t : table) :
  (root', i') <> (root, i) ->
  fetch_row i' root' (snd (insert_chat_message ro co root (Some i) t))
  = fetch_row i' root' t.
Proof.
  intros Hne. simpl. destruct (filter (at_key root i) t); simpl.
  - now apply fetch_row_insert_other.
  - now apply fetch_row_update_other.
Qed.

Lemma upsert_fetch_other_root (ro co : string) (root i root' : Z) (t : table) :
  root' <> root ->
  fetch_chat_history root' (snd (insert_chat_message ro co root (Some i) t))
  = fetch_chat_history root' t.
Proof.
  intros Hne. simpl. destruct (filter (at_key root i) t); simpl.
  - rewrite fetch_insert. destruct (Z.eqb_spec root root'); [congruence|].
    apply app_nil_r.
  - rewrite fetch_update. apply update_other. intros x Hx.
    apply in_fetch in Hx as [_ Hroot].
    destruct (at_key root i x) eqn:E; [|reflexivity].
    apply at_key_true in E as [E _]. congruence.
Qed.

Lemma count_at_insert (root i root' i' : Z) (ro co : string) (t : table) :
  count_at root' i' (insert root i ro co t)
  = (count_at root' i' t
     + if ((root =? root')%Z && (i =? i')%Z)%bool then 1 else 0)%nat.
Proof.
  unfold count_at, insert. rewrite filter_app, length_app. simpl.
  unfold at_key at 2. simpl. destruct ((root =? root') && (i =? i')); reflexivity.
Qed.

Lemma count_at_update (ro co : string) (root i root' i' : Z) (t : table) :
  count_at root' i' (update ro co root i t) = count_at root' i' t.
Proof.
  unfold count_at. rewrite filter_update. unfold update. apply length_map.
Qed.

Lemma upsert_count_same (ro co : string) (root i : Z) (t : table) :
  count_at root i (snd (insert_chat_message ro co root (Some i) t))
  = Nat.max 1 (count_at root i t).
Proof.
  simpl. destruct (filter (at_key root i) t) as [|r l] eqn:E; simpl.
  - rewrite count_at_insert, !Z.eqb_refl. unfold count_at. rewrite E. reflexivity.
  - rewrite count_at_update. unfold count_at. rewrite E. simpl. lia.
Qed.

Lemma upsert_count_other (ro co : string) (root i root' i' : Z) (t : table) :
  (root', i') <> (root, i) ->
  count_at root' i' (snd (insert_chat_message ro co root (Some i) t))
  = count_at root' i' t.
Proof.
  intros Hne. simpl. destruct (filter (at_key root i) t); simpl.
  - rewrite count_at_insert.
    destruct (Z.eqb_spec root root'); simpl; [|lia].
    destruct (Z.eqb_spec i i'); [|lia]. subst. now contradiction Hne.
  - apply count_at_update.
Qed.

(** *** What a call without an id does to them *)

Lemma auto_fetch (ro co : string) (root root' : Z) (t : table) :
  fetch_chat_history root' (snd (insert_chat_message ro co root None t))
  = fetch_chat_history root' t
    ++ (if root =? root' then [mk_row root (next_id root t) ro co] else []).
Proof. simpl. apply fetch_insert. Qed.

Lemma auto_count_kept (ro co : string) (root root' i' : Z) (t : table) :
  (1 <= count_at root' i' t)%nat ->
  count_at root' i' (snd (insert_chat_message ro co root None t))
  = count_at root' i' t.
Proof.
  intros Hc. simpl. rewrite count_at_insert.
  destruct (Z.eqb_spec root root') as [<-|]; simpl; [|lia].
  fold (next_id root t).
  destruct (Z.eqb_spec (next_id root t) i') as [<-|]; [|lia].
  pose proof (auto_id_fresh root t) as Hf. simpl in Hf.
  unfold count_at, next_id in Hc. rewrite Hf in Hc. simpl in Hc. lia.
Qed.

Lemma auto_fetch_row_kept (ro co : string) (root root' i' : Z) (t : table)
    (r : row) :
  fetch_row i' root' t = Some r ->
  fetch_row i' root' (snd (insert_chat_message ro co root None t)) = Some r.
Proof.
  simpl. unfold fetch_row, insert. rewrite filter_app.
  destruct (filter (at_key root' i') t); [discriminate|]. simpl. auto.
Qed.

Lemma auto_fetch_row_other_root (ro co : string) (root root' i' : Z) (t : table) :
  root' <> root ->
  fetch_row i' root' (snd (insert_chat_message ro co root None t))
  = fetch_row i' root' t.
Proof.
  intros Hne. simpl. apply fetch_row_insert_other. congruence.
Qed.

(** *** The hook *)

Lemma hook_effect (msg_idx : Z) (sender recipient : Agent)
    (m : message ToolCall) (stored summary : string) (t : table) :
  carries ToolCall json_dumps m stored summary ->
  hook msg_idx sender m recipient false t
  = (Ok m,
     post_snippet msg_idx summary
       (snd (insert_chat_message (name sender) stored (msg_idx + 1) None t))).
Proof.
  intros Hc. destruct Hc as [s|c s tc|c call calls Hno];
    unfold post_snippet_and_record_history; cbn [truthy_content truthy_tool_calls].
  - reflexivity.
  - reflexivity.
  - rewrite Hno. reflexivity.
Qed.

(** C4, as amended.  A call that is not silent, on a message with text or
    with a structured call and no text, in the exchange started by the
    request [msg_idx >= 0]: the hook returns the message; the thread
    [msg_idx + 1] of the exchange gains exactly one row, at the next free
    id, with the name of the sender as role and the text, or the
    serialised calls, as content; and, whatever the thread, the row of
    the top-level thread (root 0) at id [msg_idx + 1] becomes an [info]
    row holding at most 100 characters of the summary.  That row is
    created when missing and overwritten otherwise; nothing else
    changes. *)
Theorem hook_records_message (msg_idx : Z) (sender recipient : Agent)
    (m : message ToolCall) (stored summary : string) (t : table) :
  0 <= msg_idx ->
  carries ToolCall json_dumps m stored summary ->
  fst (hook msg_idx sender m recipient false t) = Ok m
  /\ fetch_chat_history (msg_idx + 1)
       (snd (hook msg_idx sender m recipient false t))
     = fetch_chat_history (msg_idx + 1) t
       ++ [mk_row (msg_idx + 1) (next_id (msg_idx + 1) t) (name sender) stored]
  /\ fetch_row (msg_idx + 1) 0 (snd (hook msg_idx sender m recipient false t))
     = Some (mk_row 0 (msg_idx + 1) "info" (summarize summary))
  /\ PyStr.len (summarize summary) <= 100
  /\ count_at 0 (msg_idx + 1) (snd (hook msg_idx sender m recipient false t))
     = Nat.max 1 (count_at 0 (msg_idx + 1) t)
  /\ (forall i, i <> msg_idx + 1 ->
        fetch_row i 0 (snd (hook msg_idx sender m recipient false t))
        = fetch_row i 0 t)
  /\ (forall root, root <> 0 -> root <> msg_idx + 1 ->
        fetch_chat_history root (snd (hook msg_idx sender m recipient false t))
        = fetch_chat_history root t).
Proof.
  intros Hidx Hc.
  rewrite (hook_effect msg_idx sender recipient m stored summary t Hc).
  cbn [fst snd]. unfold post_snippet.
  set (t1 := snd (insert_chat_message (name sender) stored (msg_idx + 1) None t)).
  split; [reflexivity|]. split; [|split; [|split; [|split; [|split]]]].
  - rewrite upsert_fetch_other_root by lia.
    subst t1. rewrite auto_fetch, Z.eqb_refl. reflexivity.
  - apply upsert_fetch_row_same.
  - apply summarize_bounded.
  - rewrite upsert_count_same. f_equal. subst t1. simpl.
    rewrite count_at_insert.
    destruct (Z.eqb_spec (msg_idx + 1) 0); [lia|]. simpl. lia.
  - intros i Hi. rewrite upsert_fetch_row_other by congruence.
    subst t1. apply auto_fetch_row_other_root. lia.
  - intros root H0 Hroot. rewrite upsert_fetch_other_root by assumption.
    subst t1. rewrite auto_fetch.
    destruct (Z.eqb_spec (msg_idx + 1) root); [congruence|]. apply app_nil_r.
Qed.

(** C9.  A silent call returns the message as it is and leaves the table
    as it is; so does any run of silent calls, such as the replay of the
    stored history. *)
Theorem silent_hook_is_identity (msg_idx : Z) (sender recipient : Agent)
    (m : message ToolCall) (t : table) :
  hook msg_idx sender m recipient true t = (Ok m, t)
  /\ forall l : list (send ToolCall),
       forallb (silent ToolCall) l = true ->
       run_hooks ToolCall json_dumps msg_idx l t = (Ok tt, t).
Proof.
  split; [reflexivity|].
  intros l. induction l as [|s l IH]; intros Hall; [reflexivity|].
  cbn [forallb] in Hall. apply andb_true_iff in Hall as [Hs Hl].
  cbn [run_hooks]. rewrite Hs. cbn. now apply IH.
Qed.

(** *** The request row and its successor during the exchange *)

Lemma above_max_fresh (root j : Z) (t : table) :
  next_id root t <= j -> filter (at_key root j) t = [].
Proof.
  intros Hj. destruct (filter (at_key root j) t) as [|r l] eqn:E; [reflexivity|].
  exfalso.
  assert (Hr : In r (filter (at_key root j) t)) by (rewrite E; now left).
  apply filter_In in Hr as [Hin Hk]. apply at_key_true in Hk as [Hroot Hid].
  pose proof (select_max_id_spec root t) as Hs. unfold next_id in Hj.
  assert (Hf : In r (fetch_chat_history root t)) by (apply in_fetch; auto).
  destruct (select_max_id root t) as [m|].
  - destruct Hs as [_ Hle]. specialize (Hle r Hf). lia.
  - rewrite Hs in Hf. destruct Hf.
Qed.

Lemma record_keeps (msg_idx : Z) (ro co summary : string) (t : table)
    (r0 : row) :
  fetch_row msg_idx 0 t = Some r0 ->
  count_at 0 (msg_idx + 1) t = 1%nat ->
  fetch_row msg_idx 0
    (post_snippet msg_idx summary
       (snd (insert_chat_message ro co (msg_idx + 1) None t))) = Some r0
  /\ count_at 0 (msg_idx + 1)
       (post_snippet msg_idx summary
          (snd (insert_chat_message ro co (msg_idx + 1) None t))) = 1%nat.
Proof.
  intros Hrow Hcount. unfold post_snippet. split.
  - rewrite upsert_fetch_row_other.
    + now apply auto_fetch_row_kept.
    + intros E; inversion E; lia.
  - rewrite upsert_count_same, auto_count_kept; rewrite Hcount; reflexivity.
Qed.

Lemma hook_keeps (msg_idx : Z) (sender recipient : Agent)
    (m : message ToolCall) (quiet : bool) (t : table) (r0 : row) :
  fetch_row msg_idx 0 t = Some r0 ->
  count_at 0 (msg_idx + 1) t = 1%nat ->
  fetch_row msg_idx 0 (snd (hook msg_idx sender m recipient quiet t)) = Some r0
  /\ count_at 0 (msg_idx + 1) (snd (hook msg_idx sender m recipient quiet t))
     = 1%nat.
Proof.
  intros Hrow Hcount. unfold post_snippet_and_record_history.
  destruct quiet; [auto|].
  destruct m as [s|c tc|]; cbn [snd]; [now apply record_keeps| |auto].
  destruct (truthy_content c); cbn [snd]; [now apply record_keeps|].
  destruct (truthy_tool_calls _ tc); cbn [snd]; [now apply record_keeps|auto].
Qed.

Lemma run_hooks_keeps (msg_idx : Z) (l : list (send ToolCall)) :
  forall (t : table) (r0 : row),
    fetch_row msg_idx 0 t = Some r0 ->
    count_at 0 (msg_idx + 1) t = 1%nat ->
    fetch_row msg_idx 0 (snd (run_hooks ToolCall json_dumps msg_idx l t))
    = Some r0
    /\ count_at 0 (msg_idx + 1)
         (snd (run_hooks ToolCall json_dumps msg_idx l t)) = 1%nat.
Proof.
  induction l as [|s l IH]; intros t r0 Hrow Hcount; cbn [run_hooks snd].
  - auto.
  - destruct (hook_keeps msg_idx (sender _ s) (recipient _ s) (sent _ s)
                (silent _ s) t r0 Hrow Hcount) as [H1 H2].
    destruct (hook msg_idx (sender _ s) (sent _ s) (recipient _ s)
                (silent _ s) t) as [[m'|e] t1]; cbn [snd] in *.
    + now apply IH.
    + auto.
Qed.

Lemma a_insert_chat_message_eq (ro co : string) (root : Z) (i : option Z)
    (t : table) :
  a_insert_chat_message ro co root i t = insert_chat_message ro co root i t.
Proof. destruct i; reflexivity. Qed.

(** C7, as amended.  When [handle_input] stores a request at id [r] of
    the top-level thread and the exchange it starts runs to its end, the
    top-level thread holds exactly one row at id [r + 1], the id after
    the one of the request: it has role [assistant] and the final
    response as content.  The row of the request is still at id [r]. *)
Theorem final_response_follows_request (user_input : string)
    (ex : exchange ToolCall) (t t' : table) :
  handle_input ToolCall json_dumps user_input ex t = (Ok tt, t') ->
  fetch_row (next_id 0 t) 0 t'
  = Some (mk_row 0 (next_id 0 t) "user" user_input)
  /\ fetch_row (next_id 0 t + 1) 0 t'
     = Some (mk_row 0 (next_id 0 t + 1) "assistant" (response _ ex))
  /\ count_at 0 (next_id 0 t + 1) t' = 1%nat.
Proof.
  unfold handle_input. rewrite !a_insert_chat_message_eq.
  change (insert_chat_message "user" user_input 0 None t)
    with (next_id 0 t, insert 0 (next_id 0 t) "user" user_input t).
  set (r := next_id 0 t). set (t1 := insert 0 r "user" user_input t).
  assert (Hreq : fetch_row r 0 t1 = Some (mk_row 0 r "user" user_input)).
  { apply fetch_row_insert_fresh. apply above_max_fresh. subst r. lia. }
  unfold a_fetch_row. rewrite Hreq, a_insert_chat_message_eq.
  set (t2 := snd (insert_chat_message "info" "Computing response…" 0
                    (Some (r + 1)) t1)).
  assert (Hreq2 : fetch_row r 0 t2 = Some (mk_row 0 r "user" user_input)).
  { subst t2. rewrite upsert_fetch_row_other; [exact Hreq|].
    intros E; inversion E; lia. }
  assert (Hcount2 : count_at 0 (r + 1) t2 = 1%nat).
  { subst t2. rewrite upsert_count_same. subst t1.
    rewrite count_at_insert. unfold count_at.
    rewrite above_max_fresh by (subst r; lia).
    destruct (Z.eqb_spec r (r + 1)); [lia|]. reflexivity. }
  unfold generate_response_process.
  destruct (py_index (fetch_chat_history 0 t2) r); [|discriminate].
  destruct (run_hooks_keeps r (sends _ ex) t2 _ Hreq2 Hcount2) as [H1 H2].
  destruct (run_hooks ToolCall json_dumps r (sends _ ex) t2) as [[u|e] t3];
    [|discriminate].
  cbn [snd] in H1, H2. intros E. apply (f_equal snd) in E.
  cbn [snd] in E. subst t'.
  split; [|split].
  - rewrite upsert_fetch_row_other; [exact H1|].
    intros E; inversion E; lia.
  - apply upsert_fetch_row_same.
  - rewrite upsert_count_same, H2. reflexivity.
Qed.

End HookFacts.

Section StoreExamples.
Import Py ThreadStore Tui.

Local Open Scope list_scope.

Lemma auto_turns_gapless_witness :
  fetch_chat_history 7 [mk_row 0 0 "user" "hi"] = []
  /\ fst (run_appends
            (map (auto_append 7)
               [("user", "a"); ("assistant", "b"); ("user", "c")])
            [mk_row 0 0 "user" "hi"])
     = [0; 1; 2].
Proof.
  split; [reflexivity|].
  exact (proj1 (auto_turns_gapless 7
                  [("user", "a"); ("assistant", "b"); ("user", "c")]
                  [mk_row 0 0 "user" "hi"] eq_refl)).
Defined.

Lemma upsert_in_place_witness :
  fetch_row 1 0 [mk_row 0 0 "user" "hi"; mk_row 0 1 "info" "Computing"]
  = Some (mk_row 0 1 "info" "Computing")
  /\ fetch_row 1 0
       (snd (insert_chat_message "assistant" "done" 0 (Some 1)
               [mk_row 0 0 "user" "hi"; mk_row 0 1 "info" "Computing"]))
     = Some (mk_row 0 1 "assistant" "done").
Proof.
  split; [reflexivity|].
  exact (proj1 (proj2 (proj2
           (proj1 upsert_in_place
              [mk_row 0 0 "user" "hi"; mk_row 0 1 "info" "Computing"]
              "assistant" "done" 0 1 (mk_row 0 1 "info" "Computing")
              eq_refl)))).
Defined.

Remark upsert_twice_example :
  run_appends
    [ {| a_role := "user"; a_content := "first"; a_root := 3; a_id := Some 4 |};
      {| a_role := "info"; a_content := "second"; a_root := 3; a_id := Some 4 |} ]
    []
  = ([4; 4], [mk_row 3 4 "info" "second"]).
Proof. reflexivity. Qed.

Local Abbreviation hook := (post_snippet_and_record_history unit Sample.dumps).

Lemma hook_records_message_witness :
  0 <= 0
  /\ fetch_chat_history 1
       (snd (hook 0 Sample.assistant (Str "working on it") Sample.user false []))
     = [mk_row 1 0 "assistant" "working on it"]
  /\ fetch_row 1 0
       (snd (hook 0 Sample.assistant (Str "working on it") Sample.user false []))
     = Some (mk_row 0 1 "info" "working on it").
Proof.
  split; [lia|].
  pose proof (hook_records_message unit Sample.dumps 0 Sample.assistant
                Sample.user (Str "working on it") "working on it"
                "working on it" [] ltac:(lia)
                (carries_str unit Sample.dumps "working on it")) as H.
  split; [exact (proj1 (proj2 H))|exact (proj1 (proj2 (proj2 H)))].
Defined.

(** C4 as stated fails: in the exchange of request 0 the message goes to
    thread 1, which is not the top-level thread, and the [info] row is
    written all the same. *)
Lemma summary_row_outside_top_level :
  snd (hook 0 Sample.assistant (Str "working on it") Sample.user false [])
  = [mk_row 1 0 "assistant" "working on it"; mk_row 0 1 "info" "working on it"]
  /\ ~ ((exists r,
           In r (snd (hook 0 Sample.assistant (Str "working on it")
                        Sample.user false []))
           /\ role r = "info")
        <-> 0 + 1 = 0).
Proof.
  split; [reflexivity|].
  intros [H _].
  assert (E : 0 + 1 = 0); [|discriminate E].
  apply H. exists (mk_row 0 1 "info" "working on it").
  split; [right; left; reflexivity|reflexivity].
Qed.

Lemma silent_hook_is_identity_witness :
  forallb (silent unit)
    [ {| sender := Sample.user; sent := Str "hi";
         recipient := Sample.assistant; silent := true |};
      {| sender := Sample.assistant; sent := Other;
         recipient := Sample.user; silent := true |} ] = true
  /\ run_hooks unit Sample.dumps 0
       [ {| sender := Sample.user; sent := Str "hi";
            recipient := Sample.assistant; silent := true |};
         {| sender := Sample.assistant; sent := Other;
            recipient := Sample.user; silent := true |} ]
       [mk_row 0 0 "user" "hi"]
     = (Ok tt, [mk_row 0 0 "user" "hi"]).
Proof.
  split; [reflexivity|].
  apply (proj2 (silent_hook_is_identity unit Sample.dumps 0 Sample.user
                  Sample.assistant (Str "hi") [mk_row 0 0 "user" "hi"])).
  reflexivity.
Defined.

Remark hook_tool_calls_example :
  hook 0 Sample.assistant (Dict (Some EmptyString) (Some [tt])) Sample.user
    false []
  = (Ok (Dict (Some EmptyString) (Some [tt])),
     [mk_row 1 0 "assistant" "[{}]"; mk_row 0 1 "info" "Calling tools…"])
  /\ fst (hook 0 Sample.assistant (Dict None None) Sample.user false [])
     = Raise (ValueError "Message must have a content or tool_calls key").
Proof. split; reflexivity. Qed.

Lemma final_response_follows_request_witness :
  handle_input unit Sample.dumps "hi" Sample.one_message []
  = (Ok tt,
     [mk_row 0 0 "user" "hi"; mk_row 0 1 "assistant" "done";
      mk_row 1 0 "assistant" "working on it"])
  /\ fetch_row 1 0
       [mk_row 0 0 "user" "hi"; mk_row 0 1 "assistant" "done";
        mk_row 1 0 "assistant" "working on it"]
     = Some (mk_row 0 1 "assistant" "done").
Proof.
  split; [reflexivity|].
  exact (proj1 (proj2
           (final_response_follows_request unit Sample.dumps "hi"
              Sample.one_message [] _ eq_refl))).
Defined.

(** C7 as stated fails: the request is stored at id 0 of the top-level
    thread, and the final response is not at id 0, which still holds the
    request, but at id 1. *)
Lemma final_response_not_at_request_turn :
  fst (insert_chat_message "user" "hi" 0 None []) = 0
  /\ handle_input unit Sample.dumps "hi" Sample.one_message []
     = (Ok tt,
        [mk_row 0 0 "user" "hi"; mk_row 0 1 "assistant" "done";
         mk_row 1 0 "assistant" "working on it"])
  /\ fetch_row 0 0
       (snd (handle_input unit Sample.dumps "hi" Sample.one_message []))
     <> Some (mk_row 0 0 "assistant" "done").
Proof.
  split; [reflexivity|]. split; [reflexivity|]. discriminate.
Qed.

End StoreExamples.

(** * Further properties of the code *)

(** ** The reflection judge: construction, counting, verdicts *)

Section ReflectionMore.
Import Py Json Reflection.

Variable Message : Type.
Variable convert_messages_to_llm_messages :
  list Message -> string -> result (list LLMMessage).
Variable format_goal : string -> string -> result string.
Variable recursion_room : nat.

Local Abbreviation check := (check_termination Message convert_messages_to_llm_messages format_goal recursion_room).
Local Abbreviation conversation := (entire_conversation Message convert_messages_to_llm_messages format_goal).
Local Abbreviation answers := (response_text Message convert_messages_to_llm_messages format_goal).

(** The ways through [check_termination]. *)
Lemma check_termination_cases (self : ReflectionTerminationManager)
    (messages : list Message) :
  ((exists m, _max_turns self = Some m /\ m <= _turns self)
   /\ check self messages
      = (Ok (Terminated MAX_TURNS_REACHED "Max turns reached."), []))
  \/ ((forall m, _max_turns self = Some m -> _turns self < m)
      /\ ((~ gate_open self
           /\ check self messages = (Ok (NotTerminated JNull), []))
          \/ (gate_open self /\ messages = []
              /\ check self messages = (Ok (NotTerminated JNull), []))
          \/ (gate_open self /\ messages <> []
              /\ ((exists e, conversation self messages = Raise e
                             /\ check self messages = (Raise e, []))
                  \/ (exists sent,
                        conversation self messages = Ok sent
                        /\ check self messages
                           = (match _model_client self sent with
                              | Ok response => judge recursion_room response
                              | Raise e => Raise e
                              end,
                              [sent])))))).
Proof.
  assert (Hlast : forall x l,
             (exists e, conversation self (x :: l) = Raise e
                        /\ match conversation self (x :: l) with
                           | Raise e' => (Raise e', [])
                           | Ok sent =>
                               (match _model_client self sent with
                                | Ok response => judge recursion_room response
                                | Raise e' => Raise e'
                                end, [sent])
                           end = (Raise e, []))
             \/ (exists sent,
                   conversation self (x :: l) = Ok sent
                   /\ match conversation self (x :: l) with
                      | Raise e' => (Raise e', [])
                      | Ok sent' =>
                          (match _model_client self sent' with
                           | Ok response => judge recursion_room response
                           | Raise e' => Raise e'
                           end, [sent'])
                      end
                      = (match _model_client self sent with
                         | Ok response => judge recursion_room response
                         | Raise e => Raise e
                         end, [sent]))).
  { intros x l. destruct (conversation self (x :: l)) as [sent|e].
    - right. exists sent. auto.
    - left. exists e. auto. }
  unfold check_termination, gate_open.
  destruct (_max_turns self) as [m|] eqn:Em.
  - destruct (Z.leb_spec m (_turns self)) as [Hm|Hm].
    + left. split; [exists m; auto|reflexivity].
    + right. split; [intros m' E; inversion E; subst; lia|].
      destruct (Z.leb_spec (_turns self) (_min_turns self)).
      * left. split; [lia|reflexivity].
      * right. destruct messages as [|x l].
        -- left. repeat split; auto.
        -- right. split; [assumption|]. split; [discriminate|].
           apply Hlast.
  - right. split; [intros m' E; discriminate|].
    destruct (Z.leb_spec (_turns self) (_min_turns self)).
    + left. split; [lia|reflexivity].
    + right. destruct messages as [|x l].
      * left. repeat split; auto.
      * right. split; [assumption|]. split; [discriminate|].
        apply Hlast.
Qed.

(** How the conversation is built: the formatted system message first,
    then the converted history, then the reminder; the first of
    [str.format] and the conversion to raise decides. *)
Lemma entire_conversation_cases (self : ReflectionTerminationManager)
    (messages : list Message) :
  (exists e, format_goal (_system_message self) (_goal self) = Raise e
             /\ conversation self messages = Raise e)
  \/ (exists content e,
        format_goal (_system_message self) (_goal self) = Ok content
        /\ convert_messages_to_llm_messages messages "reflection" = Raise e
        /\ conversation self messages = Raise e)
  \/ (exists content converted,
        format_goal (_system_message self) (_goal self) = Ok content
        /\ convert_messages_to_llm_messages messages "reflection"
           = Ok converted
        /\ conversation self messages
           = Ok (SystemMessage content
                   :: converted
                   ++ [AssistantMessage
                         ("Please provide your response as JSON, with two properties: `is_done` (bool) and `reason` (str). Goal: "
                            ++ _goal self)
                         "system"])%list).
Proof.
  unfold entire_conversation, reminder_message.
  destruct (format_goal (_system_message self) (_goal self)) as [content|e].
  - destruct (convert_messages_to_llm_messages messages "reflection")
      as [converted|e].
    + right. right. exists content, converted. auto.
    + right. left. exists content, e. auto.
  - left. exists e. auto.
Qed.

(** What [judge] makes of a text, by what [json.loads] gives. *)
Lemma judge_text_cases (text : string) :
  (loads recursion_room text = JSONDecodeError
   /\ judge recursion_room (Text text)
      = Ok (NotTerminated (JString "Failed to parse response")))
  \/ (exists digits,
        loads recursion_room text = IntegerTooLong digits
        /\ judge recursion_room (Text text)
           = Raise (ValueError (int_too_long_message digits)))
  \/ (loads recursion_room text = NestingTooDeep
      /\ judge recursion_room (Text text) = Raise RecursionError)
  \/ (exists v, loads recursion_room text = Loaded v
                /\ (forall pairs, v <> JObject pairs)
                /\ judge recursion_room (Text text) = Raise AttributeError)
  \/ (exists pairs, loads recursion_room text = Loaded (JObject pairs)
        /\ ((exists r, dict_get "is_done" pairs = JBool true
                       /\ dict_get "reason" pairs = JString r
                       /\ judge recursion_room (Text text)
                          = Ok (Terminated GOAL_REACHED r))
            \/ (exists x, judge recursion_room (Text text)
                          = Ok (NotTerminated x)))).
Proof.
  unfold judge.
  pose proof (loads_never_exhausted recursion_room text) as Hfuel.
  destruct (loads recursion_room text) as [v| |digits| |];
    [|left; auto|right; left; exists digits; auto
     |right; right; left; auto|congruence].
  right. right. right.
  destruct v as [|b|z|f|s|items|pairs];
    try (left; eexists; repeat split; [intros pairs E; discriminate E]).
  right. exists pairs. split; [reflexivity|].
  destruct (dict_get "is_done" pairs) as [|b|z|f|s|items|ps]; eauto.
  destruct (dict_get "reason" pairs) as [|b'|z|f|s|items|ps]; eauto.
  destruct b; eauto 6.
Qed.

Lemma init_builds (mc : ModelClient) (goal sm : string)
    (max_turns : option Z) (n : Z) (self : ReflectionTerminationManager) :
  init mc goal sm max_turns n = Ok self ->
  self = {| _model_client := mc; _goal := goal; _system_message := sm;
            _max_turns := max_turns; _turns := 0; _min_turns := n |}.
Proof.
  unfold init. destruct (n <? 1); [discriminate|].
  destruct max_turns as [m|]; [destruct (m <? n); [discriminate|]|];
    intros E; inversion E; reflexivity.
Qed.

(** X1.  [__init__] accepts exactly the settings with [min_turns >= 1]
    and, when [max_turns] is given, [max_turns >= min_turns]; the manager
    it builds has counted no turn and holds the settings as given.  Every
    other setting raises [ValueError], the test on [min_turns] coming
    first. *)
Theorem init_validates (mc : ModelClient) (goal sm : string)
    (max_turns : option Z) (n : Z) :
  match init mc goal sm max_turns n with
  | Ok self =>
      1 <= n
      /\ match max_turns with Some m => n <= m | None => True end
      /\ self = {| _model_client := mc; _goal := goal; _system_message := sm;
                   _max_turns := max_turns; _turns := 0; _min_turns := n |}
  | Raise e =>
      (n < 1 /\ e = ValueError "min_turns must be at least 1")
      \/ (1 <= n
          /\ match max_turns with Some m => m < n | None => False end
          /\ e = ValueError "max_turns must be greater than or equal to min_turns")
  end.
Proof.
  unfold init. destruct (Z.ltb_spec n 1).
  - left. auto.
  - destruct max_turns as [m|].
    + destruct (Z.ltb_spec m n).
      * right. auto.
      * repeat split; auto.
    + repeat split; auto.
Qed.

Lemma set_turns_after (k : nat) (self : ReflectionTerminationManager) :
  after_turns k self = set_turns self (_turns self + Z.of_nat k).
Proof.
  induction k as [|k IH].
  - unfold set_turns. destruct self; cbn. f_equal. lia.
  - cbn [after_turns]. rewrite IH. unfold record_turn_taken, set_turns. cbn.
    f_equal. lia.
Qed.

(** X2.  [reset] forgets the turns recorded and nothing else: on a
    manager as [__init__] built it, any number of [record_turn_taken]
    followed by [reset] gives the manager back; after [k] turns the
    counter is [k]; and [reset] twice is [reset] once. *)
Theorem reset_forgets_turns (mc : ModelClient) (goal sm : string)
    (max_turns : option Z) (n : Z) (self : ReflectionTerminationManager)
    (k : nat) :
  init mc goal sm max_turns n = Ok self ->
  reset (after_turns k self) = self
  /\ _turns (after_turns k self) = Z.of_nat k
  /\ reset (reset (after_turns k self)) = reset (after_turns k self).
Proof.
  intros Hinit. rewrite (init_builds _ _ _ _ _ _ Hinit).
  rewrite set_turns_after. unfold reset, set_turns. cbn.
  repeat split.
Qed.

(** X3.  Once a manager built with [max_turns = m] has recorded [m] turns
    or more, every check answers [Terminated(MAX_TURNS_REACHED)], whatever
    the history, and the model is not asked. *)
Theorem max_turns_stops_for_good (mc : ModelClient) (goal sm : string)
    (m n : Z) (self : ReflectionTerminationManager) (k : nat)
    (messages : list Message) :
  init mc goal sm (Some m) n = Ok self ->
  m <= Z.of_nat k ->
  check (after_turns k self) messages
  = (Ok (Terminated MAX_TURNS_REACHED "Max turns reached."), []).
Proof.
  intros Hinit Hk. rewrite (init_builds _ _ _ _ _ _ Hinit).
  rewrite set_turns_after. unfold check_termination, set_turns. cbn.
  destruct (Z.leb_spec m (Z.of_nat k)); [reflexivity|lia].
Qed.

(** X4.  A check asks the model at most once.  It asks exactly when the
    limit of turns is not reached, more turns than [min_turns] were
    recorded, the history is not empty, and both
    [system_message.format(goal=goal)] and the conversion of the history
    return.  The conversation sent is then the system message with the
    formatted text, followed by the converted history, followed by the
    assistant message of source ["system"] that repeats the request for
    JSON and the goal. *)
Theorem model_asked_exactly_when (self : ReflectionTerminationManager)
    (messages : list Message) :
  (exists content converted,
     format_goal (_system_message self) (_goal self) = Ok content
     /\ convert_messages_to_llm_messages messages "reflection" = Ok converted
     /\ snd (check self messages)
        = [ (SystemMessage content
               :: converted
               ++ [AssistantMessage
                     ("Please provide your response as JSON, with two properties: `is_done` (bool) and `reason` (str). Goal: "
                        ++ _goal self)
                     "system"])%list ]
     /\ (forall m, _max_turns self = Some m -> _turns self < m)
     /\ gate_open self /\ messages <> [])
  \/ (snd (check self messages) = []
      /\ ((exists m, _max_turns self = Some m /\ m <= _turns self)
          \/ ~ gate_open self
          \/ messages = []
          \/ (exists e, format_goal (_system_message self) (_goal self)
                        = Raise e)
          \/ (exists e, convert_messages_to_llm_messages messages "reflection"
                        = Raise e))).
Proof.
  destruct (check_termination_cases self messages)
    as [[Hmax ->]|[Hmax [[Hg ->]|[(Hg & Hm & ->)
         |(Hg & Hm & [(e & He & ->)|(sent & Hs & ->)])]]]]; cbn [snd].
  - right. auto.
  - right. auto.
  - right. auto.
  - right. split; [reflexivity|].
    destruct (entire_conversation_cases self messages)
      as [(e' & Hf & _)|[(content & e' & _ & Hc & _)
          |(content & converted & _ & _ & Hok)]].
    + right. right. right. left. exists e'. exact Hf.
    + right. right. right. right. exists e'. exact Hc.
    + rewrite Hok in He. discriminate He.
  - left.
    destruct (entire_conversation_cases self messages)
      as [(e' & _ & Hr)|[(content & e' & _ & _ & Hr)
          |(content & converted & Hf & Hc & Hok)]].
    + rewrite Hr in Hs. discriminate Hs.
    + rewrite Hr in Hs. discriminate Hs.
    + exists content, converted. rewrite Hok in Hs.
      inversion Hs; subst. repeat split; assumption.
Qed.

(** X5.  [check_termination] raises only past the three early returns,
    and then in these situations only.  Before the model is asked:
    [system_message.format(goal=goal)] raises, or the conversion of the
    history does, and the exception is theirs.  Once the model was asked,
    with the conversation built: the call of the model client raises;
    its answer is a tool call ([AssertionError]); its text is valid JSON
    that is not an object ([AttributeError]); its text holds an integer
    of more than 4300 digits ([ValueError]); or its text nests
    containers deeper than the interpreter has room for
    ([RecursionError]).  The [except json.JSONDecodeError] clause lets
    all of them through. *)
Theorem check_termination_raises_only (self : ReflectionTerminationManager)
    (messages : list Message) (e : exn) :
  fst (check self messages) = Raise e ->
  (forall m, _max_turns self = Some m -> _turns self < m)
  /\ gate_open self /\ messages <> []
  /\ ((format_goal (_system_message self) (_goal self) = Raise e
       /\ snd (check self messages) = [])
      \/ (exists content,
            format_goal (_system_message self) (_goal self) = Ok content
            /\ convert_messages_to_llm_messages messages "reflection"
               = Raise e
            /\ snd (check self messages) = [])
      \/ (exists sent,
            conversation self messages = Ok sent
            /\ snd (check self messages) = [sent]
            /\ (_model_client self sent = Raise e
                \/ (_model_client self sent = Ok FunctionCalls
                    /\ e = AssertionError "tool calls not supported now")
                \/ (exists text,
                      _model_client self sent = Ok (Text text)
                      /\ ((exists v,
                             loads recursion_room text = Loaded v
                             /\ (forall pairs, v <> JObject pairs)
                             /\ e = AttributeError)
                          \/ (exists digits,
                                loads recursion_room text
                                = IntegerTooLong digits
                                /\ int_max_str_digits < Z.of_nat digits
                                /\ e = ValueError (int_too_long_message digits))
                          \/ (loads recursion_room text = NestingTooDeep
                              /\ e = RecursionError)))))).
Proof.
  destruct (check_termination_cases self messages)
    as [[Hmax ->]|[Hmax [[Hg ->]|[(Hg & Hm & ->)
         |(Hg & Hm & [(e' & He' & ->)|(sent & Hs & ->)])]]]]; cbn [fst snd];
    try discriminate.
  - intros He. inversion He; subst e'.
    split; [assumption|]. split; [assumption|]. split; [assumption|].
    destruct (entire_conversation_cases self messages)
      as [(e1 & Hf & Hr)|[(content & e1 & Hf & Hc & Hr)
          |(content & converted & _ & _ & Hok)]].
    + left. rewrite Hr in He'. inversion He'; subst. auto.
    + right. left. exists content. rewrite Hr in He'.
      inversion He'; subst. auto.
    + rewrite Hok in He'. discriminate He'.
  - intros He.
    split; [assumption|]. split; [assumption|]. split; [assumption|].
    right. right. exists sent. split; [assumption|]. split; [reflexivity|].
    destruct (_model_client self sent) as [[text|]|e'] eqn:Er.
    + right. right. exists text. split; [reflexivity|].
      destruct (judge_text_cases text)
        as [[_ Hj]|[(digits & Hl & Hj)|[(Hl & Hj)|[(v & Hl & Hv & Hj)
            |(pairs & _ & [(r & _ & _ & Hj)|(x & Hj)])]]]];
        rewrite Hj in He; try discriminate.
      * right. left. exists digits. inversion He; subst.
        split; [assumption|]. split; [|reflexivity].
        apply (loads_integer_too_long recursion_room text digits Hl).
      * right. right. inversion He; subst. auto.
      * left. exists v. inversion He; subst. auto.
    + right. left. cbn in He. inversion He. auto.
    + left. inversion He. reflexivity.
Qed.

(** X6.  A verdict [Terminated] is either the limit of turns, reached, or
    [GOAL_REACHED] read from a JSON object of the model in which [is_done]
    is [true] and [reason] is the explanation given; no other reason is
    ever reported. *)
Theorem terminated_verdict_sound (self : ReflectionTerminationManager)
    (messages : list Message) (r : TerminationReason) (explanation : string) :
  fst (check self messages) = Ok (Terminated r explanation) ->
  (r = MAX_TURNS_REACHED /\ explanation = "Max turns reached."
   /\ exists m, _max_turns self = Some m /\ m <= _turns self)
  \/ (r = GOAL_REACHED /\ gate_open self /\ messages <> []
      /\ (forall m, _max_turns self = Some m -> _turns self < m)
      /\ exists text pairs,
           answers self messages text
           /\ loads recursion_room text = Loaded (JObject pairs)
           /\ dict_get "is_done" pairs = JBool true
           /\ dict_get "reason" pairs = JString explanation).
Proof.
  destruct (check_termination_cases self messages)
    as [[Hmax ->]|[Hmax [[Hg ->]|[(Hg & Hm & ->)
         |(Hg & Hm & [(e' & He' & ->)|(sent & Hs & ->)])]]]]; cbn [fst];
    try discriminate.
  - intros E; inversion E; subst. left. auto.
  - intros He. right. unfold response_text.
    destruct (_model_client self sent) as [[text|]|e'] eqn:Er;
      try discriminate He.
    destruct (judge_text_cases text)
      as [[_ Hj]|[(digits & Hl & Hj)|[(Hl & Hj)|[(v & Hl & Hv & Hj)
          |(pairs & Hl & [(x & Hd & Hr & Hj)|(x & Hj)])]]]];
      rewrite Hj in He; try discriminate.
    inversion He; subst. repeat split; try assumption.
    exists text, pairs. split; [exists sent; auto|]. auto.
Qed.

End ReflectionMore.

Section ReflectionMoreExamples.
Import Py Json Reflection.

Local Abbreviation check := (check_termination string Sample.convert Sample.format_goal Sample.room).

Lemma reset_forgets_turns_witness :
  init (Sample.answering "{}") "print hello" SYSTEM_MESSAGE (Some 5) 3
  = Ok (Sample.manager "{}" (Some 5) 3 0)
  /\ reset (after_turns 4 (Sample.manager "{}" (Some 5) 3 0))
     = Sample.manager "{}" (Some 5) 3 0.
Proof.
  split; [reflexivity|].
  exact (proj1 (reset_forgets_turns (Sample.answering "{}") "print hello"
                  SYSTEM_MESSAGE (Some 5) 3
                  (Sample.manager "{}" (Some 5) 3 0) 4 eq_refl)).
Defined.

Lemma max_turns_stops_for_good_witness :
  init (Sample.answering "{}") "print hello" SYSTEM_MESSAGE (Some 5) 3
  = Ok (Sample.manager "{}" (Some 5) 3 0)
  /\ 5 <= Z.of_nat 7
  /\ check (after_turns 7 (Sample.manager "{}" (Some 5) 3 0)) Sample.history
     = (Ok (Terminated MAX_TURNS_REACHED "Max turns reached."), []).
Proof.
  split; [reflexivity|]. split; [simpl; lia|].
  apply (max_turns_stops_for_good string Sample.convert Sample.format_goal
           Sample.room
           (Sample.answering "{}") "print hello" SYSTEM_MESSAGE 5 3
           (Sample.manager "{}" (Some 5) 3 0) 7 Sample.history).
  - reflexivity.
  - simpl; lia.
Defined.

(** The conversation the model is asked with, on a short template. *)
Remark conversation_sent_example :
  snd (check (Sample.with_template "Goal: {goal}" "{}") Sample.history)
  = [[SystemMessage "Goal: print hello";
      UserMessage "hello" "reflection";
      UserMessage "world" "reflection";
      AssistantMessage
        "Please provide your response as JSON, with two properties: `is_done` (bool) and `reason` (str). Goal: print hello"
        "system"]].
Proof. vm_compute; reflexivity. Qed.

(** A template with a field that is not [goal] makes [str.format]
    raise, and the model is not asked. *)
Remark template_with_other_field_raises :
  check (Sample.with_template "Use { and }" Sample.done_text) Sample.history
  = (Raise (KeyError " and "), [])
  /\ check (Sample.with_template "Goal: {goal} {0}" Sample.done_text)
       Sample.history
     = (Raise IndexError, [])
  /\ check (Sample.with_template "Goal: {goal" Sample.done_text)
       Sample.history
     = (Raise (ValueError "expected '}' before end of string"), []).
Proof. repeat split; vm_compute; reflexivity. Qed.

Lemma check_termination_raises_only_witness :
  fst (check (Sample.asked "[]") Sample.history) = Raise AttributeError
  /\ gate_open (Sample.asked "[]").
Proof.
  assert (H : fst (check (Sample.asked "[]") Sample.history)
              = Raise AttributeError) by (vm_compute; reflexivity).
  split; [exact H|].
  exact (proj1 (proj2 (check_termination_raises_only string Sample.convert
                         Sample.format_goal Sample.room (Sample.asked "[]")
                         Sample.history AttributeError H))).
Defined.

Lemma terminated_verdict_sound_witness :
  fst (check (Sample.asked Sample.done_text) Sample.history)
  = Ok (Terminated GOAL_REACHED "done")
  /\ gate_open (Sample.asked Sample.done_text).
Proof.
  assert (H : fst (check (Sample.asked Sample.done_text) Sample.history)
              = Ok (Terminated GOAL_REACHED "done"))
    by (vm_compute; reflexivity).
  split; [exact H|].
  destruct (terminated_verdict_sound string Sample.convert Sample.format_goal
              Sample.room
              (Sample.asked Sample.done_text) Sample.history
              GOAL_REACHED "done" H) as [(E & _)|(_ & Hg & _)].
  - discriminate E.
  - exact Hg.
Defined.

End ReflectionMoreExamples.

(** ** The table: reading back, framing, growth *)

Section ThreadStoreMore.
Import ThreadStore.

Local Open Scope list_scope.

(** X7.  Whatever the table and whether or not an id is passed,
    [fetch_row] at the id [insert_chat_message] returned reads back the
    role and content just written; the awaited variants agree. *)
Theorem insert_then_fetch_row (ro co : string) (root : Z) (i : option Z)
    (t : table) :
  fetch_row (fst (insert_chat_message ro co root i t)) root
    (snd (insert_chat_message ro co root i t))
  = Some (mk_row root (fst (insert_chat_message ro co root i t)) ro co)
  /\ a_fetch_row (fst (a_insert_chat_message ro co root i t)) root
       (snd (a_insert_chat_message ro co root i t))
     = fetch_row (fst (insert_chat_message ro co root i t)) root
         (snd (insert_chat_message ro co root i t)).
Proof.
  split.
  - destruct i as [i|].
    + replace (fst (insert_chat_message ro co root (Some i) t)) with i
        by (simpl; destruct (filter (at_key root i) t); reflexivity).
      apply upsert_fetch_row_same.
    + simpl. apply fetch_row_insert_fresh. apply auto_id_fresh.
  - rewrite a_insert_chat_message_eq. reflexivity.
Qed.

(** X8.  A call of [insert_chat_message] changes what is read at the key
    it wrote and nothing else: [fetch_row] at any other key, and
    [fetch_chat_history] of any other thread, are as before. *)
Theorem insert_leaves_the_rest (ro co : string) (root : Z) (i : option Z)
    (t : table) (root' i' : Z) :
  (root', i') <> (root, fst (insert_chat_message ro co root i t)) ->
  fetch_row i' root' (snd (insert_chat_message ro co root i t))
  = fetch_row i' root' t
  /\ (root' <> root ->
      fetch_chat_history root' (snd (insert_chat_message ro co root i t))
      = fetch_chat_history root' t).
Proof.
  intros Hne. destruct i as [i|].
  - replace (fst (insert_chat_message ro co root (Some i) t)) with i in Hne
      by (simpl; destruct (filter (at_key root i) t); reflexivity).
    split; [now apply upsert_fetch_row_other|].
    intros Hroot. now apply upsert_fetch_other_root.
  - simpl in *. split; [now apply fetch_row_insert_other|].
    intros Hroot. rewrite fetch_insert.
    destruct (Z.eqb_spec root root'); [congruence|]. apply app_nil_r.
Qed.

(** X9.  [insert_chat_message] never removes or moves a row: the keys of
    the table afterwards are the keys before, followed by the key written
    when no row was at it. *)
Theorem insert_only_appends (ro co : string) (root : Z) (i : option Z)
    (t : table) :
  keys (snd (insert_chat_message ro co root i t))
  = keys t
    ++ match count_at root (fst (insert_chat_message ro co root i t)) t with
       | O => [(root, fst (insert_chat_message ro co root i t))]
       | S _ => []
       end.
Proof.
  assert (Hins : forall j, keys (insert root j ro co t) = keys t ++ [(root, j)]).
  { intros j. unfold keys, insert. rewrite map_app. reflexivity. }
  destruct i as [i|]; simpl.
  - unfold count_at. destruct (filter (at_key root i) t) eqn:E; simpl.
    + rewrite E. simpl. apply Hins.
    + rewrite E. simpl. rewrite app_nil_r. apply update_keys.
  - unfold count_at. rewrite (auto_id_fresh root t). simpl. apply Hins.
Qed.

(** X10.  [fetch_row(id, root)] is the first row with that id among the
    rows [fetch_chat_history(root)] returns, and [None] when the thread
    has none. *)
Theorem fetch_row_in_thread (i root : Z) (t : table) :
  fetch_row i root t
  = find (fun r => id r =? i) (fetch_chat_history root t).
Proof.
  unfold fetch_row, fetch_chat_history.
  induction t as [|r t IH]; [reflexivity|].
  cbn [filter]. unfold at_key at 1, in_root at 1.
  destruct (root_id r =? root); cbn [andb].
  - cbn [find]. destruct (id r =? i); [reflexivity|exact IH].
  - exact IH.
Qed.

Lemma max_of_iota (n : nat) :
  max_of (map Z.of_nat (seq 0 n))
  = match n with O => None | S k => Some (Z.of_nat k) end.
Proof.
  induction n as [|n IH]; [reflexivity|].
  rewrite seq_S, map_app. cbn [map Nat.add]. rewrite max_of_app, IH.
  destruct n; f_equal; lia.
Qed.

(** Every thread holds the ids 0, 1, 2, ... in this order. *)
Lemma auto_insert_gapless (ro co : string) (root : Z) (t : table) :
  (forall r, thread_ids r t
             = map Z.of_nat (seq 0 (List.length (fetch_chat_history r t)))) ->
  forall r, thread_ids r (snd (insert_chat_message ro co root None t))
            = map Z.of_nat
                (seq 0 (List.length
                          (fetch_chat_history r
                             (snd (insert_chat_message ro co root None t))))).
Proof.
  intros Hall r. simpl. unfold thread_ids. rewrite fetch_insert.
  destruct (Z.eqb_spec root r) as [->|Hne].
  - rewrite map_app, length_app. cbn [List.length map id mk_row].
    rewrite Nat.add_1_r, seq_S, map_app. cbn [map Nat.add].
    fold (thread_ids r t). rewrite Hall. f_equal. f_equal.
    unfold select_max_id. fold (thread_ids r t). rewrite Hall, max_of_iota.
    destruct (List.length (fetch_chat_history r t)); lia.
  - rewrite app_nil_r. apply Hall.
Qed.

(** X11.  From the empty table, calls without an id on any threads, in any
    interleaving, leave every thread with the ids 0, 1, 2, ... in the
    order of insertion, as many as there were calls on that thread. *)
Theorem interleaved_threads_gapless (calls : list (Z * (string * string)))
    (root : Z) :
  thread_ids root
    (snd (run_appends (map (fun c => auto_append (fst c) (snd c)) calls) []))
  = map Z.of_nat
      (seq 0 (List.length (filter (fun c => fst c =? root) calls))).
Proof.
  assert (Hgen : forall t,
             (forall r, thread_ids r t
                        = map Z.of_nat
                            (seq 0 (List.length (fetch_chat_history r t)))) ->
             let t' := snd (run_appends
                              (map (fun c => auto_append (fst c) (snd c)) calls)
                              t) in
             (forall r, thread_ids r t'
                        = map Z.of_nat
                            (seq 0 (List.length (fetch_chat_history r t'))))
             /\ forall r, List.length (fetch_chat_history r t')
                          = Nat.add (List.length (fetch_chat_history r t))
                              (List.length
                                 (filter (fun c => fst c =? r) calls))).
  { induction calls as [|c calls IH]; intros t Hall; cbn [map run_appends].
    - simpl. split; [exact Hall|]. intros r. lia.
    - rewrite run_append_auto. fold (next_id (fst c) t).
      pose proof (auto_insert_gapless (fst (snd c)) (snd (snd c)) (fst c) t Hall)
        as Hall1.
      simpl in Hall1. fold (next_id (fst c) t) in Hall1.
      specialize (IH _ Hall1).
      destruct (run_appends (map (fun c0 => auto_append (fst c0) (snd c0)) calls)
                  (insert (fst c) (next_id (fst c) t) (fst (snd c))
                     (snd (snd c)) t)) as [ids t2].
      simpl in IH. simpl. destruct IH as [IH1 IH2]. split; [exact IH1|].
      intros r. rewrite IH2, fetch_insert, length_app.
      destruct (Z.eqb_spec (fst c) r); simpl; lia. }
  destruct (Hgen []) as [H1 H2]; [intros r; reflexivity|].
  rewrite H1, H2. reflexivity.
Qed.

End ThreadStoreMore.

Section ThreadStoreMoreExamples.
Import ThreadStore.

Lemma insert_leaves_the_rest_witness :
  (0, 0) <> (0, fst (insert_chat_message "info" "wait" 0 None
                       [mk_row 0 0 "user" "hi"]))
  /\ fetch_row 0 0
       (snd (insert_chat_message "info" "wait" 0 None [mk_row 0 0 "user" "hi"]))
     = Some (mk_row 0 0 "user" "hi").
Proof.
  assert (H : (0, 0) <> (0, fst (insert_chat_message "info" "wait" 0 None
                                   [mk_row 0 0 "user" "hi"])))
    by (simpl; discriminate).
  split; [exact H|].
  exact (proj1 (insert_leaves_the_rest "info" "wait" 0 None
                  [mk_row 0 0 "user" "hi"] 0 0 H)).
Defined.

Remark interleaved_threads_example :
  run_appends
    (map (fun c => auto_append (fst c) (snd c))
       [(1, ("user", "a")); (2, ("user", "b")); (1, ("assistant", "c"))])
    []
  = ([0; 0; 1],
     [mk_row 1 0 "user" "a"; mk_row 2 0 "user" "b"; mk_row 1 1 "assistant" "c"]).
Proof. reflexivity. Qed.

End ThreadStoreMoreExamples.

(** ** The rule on empty inputs and the snippets: what they look at *)

Section RuleMore.
Import Tui.

Local Open Scope list_scope.

Lemma filter_twice {A} (p : A -> bool) (l : list A) :
  filter p (filter p l) = filter p l.
Proof.
  induction l as [|x l IH]; [reflexivity|]. simpl.
  destruct (p x) eqn:E; simpl; rewrite ?E, IH; reflexivity.
Qed.

(** X12.  The rule reads the [user] messages only: dropping every message
    of another role from the history does not change its answer. *)
Theorem rule_ignores_other_roles (recipient sender : Agent)
    (messages : list chat_message) :
  terminate_on_consecutive_empty recipient messages sender
  = terminate_on_consecutive_empty recipient (filter is_user messages) sender.
Proof.
  unfold terminate_on_consecutive_empty. rewrite !scan_reversed_two.
  rewrite !filter_rev, filter_twice. reflexivity.
Qed.

(** X13.  The rule reads the end of the history only: when a history has
    two [user] messages or more, whatever came before it does not change
    the answer; and when the last [user] message has content, the answer
    is [(False, None)] whatever came before. *)
Theorem rule_reads_recent_only (recipient sender : Agent)
    (earlier recent : list chat_message) :
  ((2 <= List.length (filter is_user recent))%nat ->
   terminate_on_consecutive_empty recipient (earlier ++ recent) sender
   = terminate_on_consecutive_empty recipient recent sender)
  /\ (forall m after,
        recent = m :: after ->
        is_user m = true -> is_empty m = false ->
        filter is_user after = [] ->
        terminate_on_consecutive_empty recipient (earlier ++ recent) sender
        = (false, None)).
Proof.
  unfold terminate_on_consecutive_empty. rewrite !scan_reversed_two.
  rewrite rev_app_distr, filter_app. split.
  - intros Hlen. rewrite <- (length_rev (filter is_user recent)) in Hlen.
    rewrite <- filter_rev in Hlen.
    destruct (filter is_user (rev recent)) as [|m1 [|m2 l]];
      simpl in Hlen; try lia.
    reflexivity.
  - intros m after -> Hu He Hafter. cbn [rev].
    rewrite filter_app, filter_rev, Hafter. cbn [rev app filter].
    rewrite Hu. cbn [app].
    destruct (filter is_user (rev earlier)) as [|m2 l]; rewrite He; reflexivity.
Qed.

Lemma len_nonneg (s : string) : 0 <= PyStr.len s.
Proof.
  induction s as [|c s IH]; simpl; [lia|].
  destruct (PyStr.is_continuation c); lia.
Qed.

Lemma take_prefix (n : nat) (s : string) :
  exists rest, s = (PyStr.take n s ++ rest)%string.
Proof.
  revert n; induction s as [|c s IH]; intros n; simpl.
  - exists EmptyString. reflexivity.
  - destruct (PyStr.is_continuation c).
    + destruct (IH n) as [rest E]. exists rest. simpl. now rewrite <- E.
    + destruct n as [|n].
      * exists (String c s). reflexivity.
      * destruct (IH n) as [rest E]. exists rest. simpl. now rewrite <- E.
Qed.

Lemma take_short (n : nat) (s : string) :
  PyStr.len s <= Z.of_nat n -> PyStr.take n s = s.
Proof.
  revert n; induction s as [|c s IH]; intros n; simpl; [reflexivity|].
  pose proof (len_nonneg s) as Hs.
  destruct (PyStr.is_continuation c).
  - intros H. f_equal. apply IH. lia.
  - destruct n as [|n]; intros H; [lia|]. f_equal. apply IH. lia.
Qed.

(** X14.  [summarize] cuts and never rewrites: its result is the start of
    the text, it is the whole text when the text has at most 100
    characters, and summarising twice is summarising once. *)
Theorem summarize_is_a_prefix (text : string) :
  (exists rest, text = (summarize text ++ rest)%string)
  /\ (PyStr.len text <= 100 -> summarize text = text)
  /\ summarize (summarize text) = summarize text.
Proof.
  unfold summarize. split; [apply take_prefix|]. split.
  - apply (take_short 100).
  - apply (take_short 100). apply (take_len 100).
Qed.

Lemma rule_reads_recent_only_witness :
  (2 <= List.length
          (filter is_user [Sample.said "user" EmptyString;
                           Sample.said "user" EmptyString]))%nat
  /\ terminate_on_consecutive_empty Sample.assistant
       ([Sample.said "user" "task"; Sample.said "assistant" "ok"]
          ++ [Sample.said "user" EmptyString; Sample.said "user" EmptyString])
       Sample.user
     = terminate_on_consecutive_empty Sample.assistant
         [Sample.said "user" EmptyString; Sample.said "user" EmptyString]
         Sample.user.
Proof.
  split; [simpl; lia|].
  apply (proj1 (rule_reads_recent_only Sample.assistant Sample.user
                  [Sample.said "user" "task"; Sample.said "assistant" "ok"]
                  [Sample.said "user" EmptyString;
                   Sample.said "user" EmptyString])).
  simpl; lia.
Defined.

Lemma summarize_is_a_prefix_witness :
  PyStr.len "Calling tools…" <= 100
  /\ summarize "Calling tools…" = "Calling tools…".
Proof.
  split; [vm_compute; discriminate|].
  apply (proj1 (proj2 (summarize_is_a_prefix "Calling tools…"))).
  vm_compute; discriminate.
Defined.

End RuleMore.

(** ** The hook and the exchange: failures and what the threads hold *)

Section HookMore.
Import Py ThreadStore Tui.

Local Open Scope list_scope.

Variable ToolCall : Type.
Variable json_dumps : list ToolCall -> string.

Local Abbreviation hook := (post_snippet_and_record_history ToolCall json_dumps).
Local Abbreviation process := (generate_response_process ToolCall json_dumps).
Local Abbreviation handle := (handle_input ToolCall json_dumps).

(** How a call of the hook can end. *)
Lemma hook_outcome (msg_idx : Z) (sender recipient : Agent)
    (m : message ToolCall) (quiet : bool) (t : table) :
  (forall m', fst (hook msg_idx sender m recipient quiet t) = Ok m' ->
              quiet = true \/ storable ToolCall m = true)
  /\ (forall e, fst (hook msg_idx sender m recipient quiet t) = Raise e ->
                e <> IndexError).
Proof.
  unfold post_snippet_and_record_history, storable.
  destruct quiet; cbn [fst]; [split; [auto|discriminate]|].
  destruct m as [s|c tc|]; cbn [fst].
  - split; [auto|discriminate].
  - destruct (truthy_content c); cbn [fst orb]; [split; [auto|discriminate]|].
    destruct (truthy_tool_calls ToolCall tc); cbn [fst];
      [split; [auto|discriminate]|].
    split; [discriminate|]. intros e E; inversion E; discriminate.
  - split; [discriminate|]. intros e E; inversion E; discriminate.
Qed.

(** X15.  A call of the hook that raises has written nothing, and it
    raises only when it is not silent and the message has neither text
    nor tool calls ([ValueError]; [UnboundLocalError] for a message that
    is neither a [str] nor a [Dict]).  A call that returns, returns the
    message it was given. *)
Theorem hook_fails_without_writing (msg_idx : Z) (sender recipient : Agent)
    (m : message ToolCall) (quiet : bool) (t : table) :
  match fst (hook msg_idx sender m recipient quiet t) with
  | Ok m' => m' = m /\ (quiet = true \/ storable ToolCall m = true)
  | Raise e =>
      snd (hook msg_idx sender m recipient quiet t) = t
      /\ quiet = false /\ storable ToolCall m = false
      /\ ((m <> Other
           /\ e = ValueError "Message must have a content or tool_calls key")
          \/ (m = Other /\ e = UnboundLocalError))
  end.
Proof.
  unfold post_snippet_and_record_history, storable.
  destruct quiet; cbn [fst]; [auto|].
  destruct m as [s|c tc|]; cbn [fst snd].
  - auto.
  - destruct (truthy_content c); cbn [fst snd orb]; [auto|].
    destruct (truthy_tool_calls ToolCall tc); cbn [fst snd]; [auto|].
    repeat split. left. split; [discriminate|reflexivity].
  - repeat split. right. auto.
Qed.

Lemma silent_call (msg_idx : Z) (sender recipient : Agent)
    (m : message ToolCall) (t : table) :
  hook msg_idx sender m recipient true t = (Ok m, t).
Proof. reflexivity. Qed.

Lemma storable_carries (m : message ToolCall) :
  storable ToolCall m = true ->
  exists stored summary, carries ToolCall json_dumps m stored summary.
Proof.
  destruct m as [s|c tc|]; cbn [storable]; [| |discriminate].
  - intros _. exists s, s. constructor.
  - destruct (truthy_content c) eqn:Ec; cbn [orb].
    + intros _. destruct c as [[|a s]|]; try discriminate Ec.
      eexists _, _. constructor.
    + intros Ht. destruct tc as [[|call calls]|]; try discriminate Ht.
      eexists _, _. now constructor.
Qed.




(** *** A failed exchange *)

Lemma hook_keeps_info (msg_idx : Z) (sender recipient : Agent)
    (m : message ToolCall) (quiet : bool) (t : table) :
  (exists c, fetch_row (msg_idx + 1) 0 t
             = Some (mk_row 0 (msg_idx + 1) "info" c)) ->
  exists c, fetch_row (msg_idx + 1) 0
              (snd (hook msg_idx sender m recipient quiet t))
            = Some (mk_row 0 (msg_idx + 1) "info" c).
Proof.
  intros Hinfo.
  assert (Hrec : forall ro co summary,
             exists c,
               fetch_row (msg_idx + 1) 0
                 (post_snippet msg_idx summary
                    (snd (insert_chat_message ro co (msg_idx + 1) None t)))
               = Some (mk_row 0 (msg_idx + 1) "info" c)).
  { intros ro co summary. exists (summarize summary).
    unfold post_snippet. apply upsert_fetch_row_same. }
  unfold post_snippet_and_record_history.
  destruct quiet; [exact Hinfo|].
  destruct m as [s|c tc|]; cbn [snd]; [apply Hrec| |exact Hinfo].
  destruct (truthy_content c); cbn [snd]; [apply Hrec|].
  destruct (truthy_tool_calls _ tc); cbn [snd]; [apply Hrec|exact Hinfo].
Qed.

Lemma run_hooks_keeps_info (msg_idx : Z) (l : list (send ToolCall)) :
  forall t : table,
    (exists c, fetch_row (msg_idx + 1) 0 t
               = Some (mk_row 0 (msg_idx + 1) "info" c)) ->
    exists c, fetch_row (msg_idx + 1) 0
                (snd (run_hooks ToolCall json_dumps msg_idx l t))
              = Some (mk_row 0 (msg_idx + 1) "info" c).
Proof.
  induction l as [|s l IH]; intros t Hinfo; cbn [run_hooks snd]; [exact Hinfo|].
  pose proof (hook_keeps_info msg_idx (sender _ s) (recipient _ s) (sent _ s)
                (silent _ s) t Hinfo) as H1.
  destruct (hook msg_idx (sender _ s) (sent _ s) (recipient _ s)
              (silent _ s) t) as [[m'|e] t1]; cbn [snd] in *.
  - now apply IH.
  - exact H1.
Qed.

(** X17.  When the exchange started by [handle_input] ends with an
    exception, the request is still in its row and the row after it is
    still an [info] row, the placeholder or the last snippet: neither an
    [assistant] nor an [error] row is written for the request. *)
Theorem failed_exchange_leaves_placeholder (user_input : string)
    (ex : exchange ToolCall) (t t' : table) (e : exn) :
  handle user_input ex t = (Raise e, t') ->
  fetch_row (next_id 0 t) 0 t'
  = Some (mk_row 0 (next_id 0 t) "user" user_input)
  /\ (exists c, fetch_row (next_id 0 t + 1) 0 t'
                = Some (mk_row 0 (next_id 0 t + 1) "info" c))
  /\ count_at 0 (next_id 0 t + 1) t' = 1%nat.
Proof.
  unfold handle_input. rewrite !a_insert_chat_message_eq.
  change (insert_chat_message "user" user_input 0 None t)
    with (next_id 0 t, insert 0 (next_id 0 t) "user" user_input t).
  set (r := next_id 0 t). set (t1 := insert 0 r "user" user_input t).
  assert (Hreq : fetch_row r 0 t1 = Some (mk_row 0 r "user" user_input)).
  { apply fetch_row_insert_fresh. apply above_max_fresh. subst r. lia. }
  unfold a_fetch_row. rewrite Hreq, a_insert_chat_message_eq.
  set (t2 := snd (insert_chat_message "info" "Computing response…" 0
                    (Some (r + 1)) t1)).
  assert (Hreq2 : fetch_row r 0 t2 = Some (mk_row 0 r "user" user_input)).
  { subst t2. rewrite upsert_fetch_row_other; [exact Hreq|].
    intros E; inversion E; lia. }
  assert (Hinfo2 : exists c, fetch_row (r + 1) 0 t2
                             = Some (mk_row 0 (r + 1) "info" c)).
  { eexists. subst t2. apply upsert_fetch_row_same. }
  assert (Hcount2 : count_at 0 (r + 1) t2 = 1%nat).
  { subst t2. rewrite upsert_count_same. subst t1.
    rewrite count_at_insert. unfold count_at.
    rewrite above_max_fresh by (subst r; lia).
    destruct (Z.eqb_spec r (r + 1)); [lia|]. reflexivity. }
  unfold generate_response_process.
  destruct (py_index (fetch_chat_history 0 t2) r).
  - destruct (run_hooks_keeps ToolCall json_dumps r (sends _ ex) t2 _
                Hreq2 Hcount2) as [H1 H2].
    pose proof (run_hooks_keeps_info r (sends _ ex) t2 Hinfo2) as H3.
    destruct (run_hooks ToolCall json_dumps r (sends _ ex) t2) as [[u|e'] t3];
      [discriminate|].
    cbn [snd] in *. intros E. apply (f_equal snd) in E. cbn [snd] in E.
    subst t'. auto.
  - intros E. apply (f_equal snd) in E. cbn [snd] in E. subst t'. auto.
Qed.

(** *** The top-level thread stays dense *)








(** *** The thread of the exchange *)

Lemma next_id_auto (ro co : string) (root : Z) (t : table) :
  next_id root (snd (insert_chat_message ro co root None t))
  = next_id root t + 1.
Proof.
  simpl. unfold next_id. rewrite select_max_id_insert.
  destruct (select_max_id root t); lia.
Qed.

Lemma next_id_upsert_other (ro co : string) (root i root' : Z) (t : table) :
  root' <> root ->
  next_id root' (snd (insert_chat_message ro co root (Some i) t))
  = next_id root' t.
Proof.
  intros H. unfold next_id, select_max_id.
  now rewrite upsert_fetch_other_root.
Qed.

Lemma shifted_ids (a : Z) (n : nat) :
  map (fun k => a + Z.of_nat k) (seq 0 (S n))
  = a :: map (fun k => a + 1 + Z.of_nat k) (seq 0 n).
Proof.
  cbn [seq map]. f_equal; [lia|].
  rewrite <- seq_shift, map_map. apply map_ext. intros k. lia.
Qed.

Lemma run_hooks_thread (msg_idx : Z) (l : list (send ToolCall)) :
  msg_idx + 1 <> 0 ->
  forall t t' : table,
    run_hooks ToolCall json_dumps msg_idx l t = (Ok tt, t') ->
    exists rows,
      fetch_chat_history (msg_idx + 1) t'
      = fetch_chat_history (msg_idx + 1) t ++ rows
      /\ Forall2 (fun s r =>
                    role r = name (sender _ s)
                    /\ exists summary,
                         carries ToolCall json_dumps (sent _ s) (content r)
                           summary)
           (loud ToolCall l) rows
      /\ map id rows
         = map (fun k => next_id (msg_idx + 1) t + Z.of_nat k)
             (seq 0 (List.length (loud ToolCall l))).
Proof.
  intros Hroot. induction l as [|s l IH]; intros t t'; cbn [run_hooks].
  - intros E; inversion E; subst. exists []. rewrite app_nil_r.
    repeat split. constructor.
  - pose proof (hook_outcome msg_idx (sender _ s) (recipient _ s)
                  (sent _ s) (silent _ s) t) as [Hh _].
    destruct (hook msg_idx (sender _ s) (sent _ s) (recipient _ s)
                (silent _ s) t) as [[m'|e] t1] eqn:Eh; [|discriminate].
    cbn [fst] in Hh. specialize (Hh m' eq_refl). intros Hrun.
    destruct (IH t1 t' Hrun) as (rows & Hf & Hall & Hids).
    unfold loud. cbn [filter]. fold (loud ToolCall l).
    destruct (silent _ s) eqn:Es; cbn [negb].
    + assert (t1 = t) by (rewrite silent_call in Eh; congruence).
      subst t1. exists rows. auto.
    + destruct Hh as [Hh|Hh]; [discriminate|].
      destruct (storable_carries _ Hh) as (stored & summary & Hc).
      rewrite (hook_effect ToolCall json_dumps msg_idx (sender _ s)
                 (recipient _ s) (sent _ s) stored summary t Hc) in Eh.
      apply (f_equal snd) in Eh. cbn [snd] in Eh. subst t1.
      unfold post_snippet in Hf, Hids.
      rewrite upsert_fetch_other_root in Hf by assumption.
      rewrite auto_fetch, Z.eqb_refl in Hf.
      rewrite next_id_upsert_other, next_id_auto in Hids by assumption.
      exists (mk_row (msg_idx + 1) (next_id (msg_idx + 1) t)
                (name (sender _ s)) stored :: rows).
      split; [rewrite Hf, <- app_assoc; reflexivity|]. split.
      * constructor; [|exact Hall]. split; [reflexivity|].
        exists summary. exact Hc.
      * cbn [List.length]. rewrite shifted_ids. cbn [map id mk_row].
        f_equal. exact Hids.
Qed.

(** X19.  When [generate_response_process(msg_idx)], [msg_idx >= 0], runs
    to its end, the thread [msg_idx + 1] has gained exactly one row for
    each message that went through the hook without [silent], in the
    order sent: the role is the name of the sender, the content the text
    of the message or its serialised tool calls, and the ids continue
    those of the thread without gap.  Silent messages leave no row. *)
Theorem exchange_thread_records_messages (msg_idx : Z)
    (ex : exchange ToolCall) (t t' : table) :
  0 <= msg_idx ->
  process msg_idx ex t = (Ok tt, t') ->
  exists rows,
    fetch_chat_history (msg_idx + 1) t'
    = fetch_chat_history (msg_idx + 1) t ++ rows
    /\ Forall2 (fun s r =>
                  role r = name (sender _ s)
                  /\ exists summary,
                       carries ToolCall json_dumps (sent _ s) (content r)
                         summary)
         (loud ToolCall (sends _ ex)) rows
    /\ map id rows
       = map (fun k => next_id (msg_idx + 1) t + Z.of_nat k)
           (seq 0 (List.length (loud ToolCall (sends _ ex)))).
Proof.
  intros Hidx. unfold generate_response_process.
  destruct (py_index (fetch_chat_history 0 t) msg_idx); [|discriminate].
  destruct (run_hooks ToolCall json_dumps msg_idx (sends _ ex) t)
    as [[[]|e] t1] eqn:Er; [|discriminate].
  intros E. apply (f_equal snd) in E. cbn [snd] in E. subst t'.
  destruct (run_hooks_thread msg_idx (sends _ ex) ltac:(lia) t t1 Er)
    as (rows & Hf & Hall & Hids).
  exists rows. rewrite upsert_fetch_other_root by lia. auto.
Qed.

End HookMore.

Section HookMoreExamples.
Import Py ThreadStore Tui.

Local Open Scope list_scope.

Local Abbreviation process := (generate_response_process unit Sample.dumps).
Local Abbreviation handle := (handle_input unit Sample.dumps).


Lemma failed_exchange_leaves_placeholder_witness :
  handle "hi" Sample.broken_exchange []
  = (Raise (ValueError "Message must have a content or tool_calls key"),
     [mk_row 0 0 "user" "hi"; mk_row 0 1 "info" "step one";
      mk_row 1 0 "assistant" "step one"])
  /\ fetch_row 0 0
       [mk_row 0 0 "user" "hi"; mk_row 0 1 "info" "step one";
        mk_row 1 0 "assistant" "step one"]
     = Some (mk_row 0 0 "user" "hi").
Proof.
  split; [reflexivity|].
  exact (proj1 (failed_exchange_leaves_placeholder unit Sample.dumps "hi"
                  Sample.broken_exchange [] _ _ eq_refl)).
Defined.


Lemma exchange_thread_records_messages_witness :
  0 <= 0
  /\ process 0 Sample.one_message
       [mk_row 0 0 "user" "hi"; mk_row 0 1 "info" "Computing response…"]
     = (Ok tt,
        [mk_row 0 0 "user" "hi"; mk_row 0 1 "assistant" "done";
         mk_row 1 0 "assistant" "working on it"])
  /\ exists rows,
       fetch_chat_history (0 + 1)
         [mk_row 0 0 "user" "hi"; mk_row 0 1 "assistant" "done";
          mk_row 1 0 "assistant" "working on it"]
       = fetch_chat_history (0 + 1)
           [mk_row 0 0 "user" "hi"; mk_row 0 1 "info" "Computing response…"]
         ++ rows
       /\ map id rows = [0].
Proof.
  split; [lia|]. split; [reflexivity|].
  destruct (exchange_thread_records_messages unit Sample.dumps 0
              Sample.one_message
              [mk_row 0 0 "user" "hi"; mk_row 0 1 "info" "Computing response…"]
              _ ltac:(lia) eq_refl) as (rows & Hf & _ & Hids).
  exists rows. split; [exact Hf|exact Hids].
Defined.

End HookMoreExamples.

(** ** The profiler *)

Section ProfilerFacts.
Import ThreadStore Profiler.

Local Open Scope list_scope.

Lemma split_cons (sep : ascii) (s : string) :
  exists piece pieces, split sep s = piece :: pieces.
Proof.
  induction s as [|c s (piece & pieces & IH)]; simpl; [eauto|].
  destruct (Ascii.eqb c sep); [eauto|]. rewrite IH. eauto.
Qed.

Lemma join_push (sep c : ascii) (piece : string) (pieces : list string) :
  join sep (String c piece :: pieces) = String c (join sep (piece :: pieces)).
Proof. destruct pieces; reflexivity. Qed.

(** Splitting loses nothing: joining the pieces gives the text back. *)
Lemma join_split (sep : ascii) (s : string) : join sep (split sep s) = s.
Proof.
  induction s as [|c s IH]; [reflexivity|]. cbn [split].
  destruct (split_cons sep s) as (piece & pieces & E).
  destruct (Ascii.eqb_spec c sep) as [->|Hne].
  - rewrite E in *.
    change (join sep (EmptyString :: piece :: pieces))
      with (String sep (join sep (piece :: pieces))).
    now rewrite IH.
  - rewrite E in *. rewrite join_push. now rewrite IH.
Qed.

(** No piece of a split holds the separator. *)
Lemma split_no_sep (sep : ascii) (s : string) :
  Forall (fun piece => has_char sep piece = false) (split sep s).
Proof.
  induction s as [|c s IH]; cbn [split].
  - constructor; [reflexivity|constructor].
  - destruct (Ascii.eqb c sep) eqn:Ec.
    + constructor; [reflexivity|exact IH].
    + destruct (split sep s) as [|piece pieces].
      * constructor; [cbn; now rewrite Ec|constructor].
      * inversion IH as [|? ? Hp Hps]; subst.
        constructor; [cbn; now rewrite Ec, Hp|exact Hps].
Qed.

Lemma split_plain (sep : ascii) (piece : string) :
  has_char sep piece = false -> split sep piece = [piece].
Proof.
  induction piece as [|c piece IH]; [reflexivity|]. cbn.
  destruct (Ascii.eqb c sep); [discriminate|]. cbn.
  intros H. now rewrite (IH H).
Qed.

Lemma split_app (sep : ascii) (piece rest : string) :
  has_char sep piece = false ->
  split sep (piece ++ String sep rest)%string = piece :: split sep rest.
Proof.
  induction piece as [|c piece IH]; cbn.
  - now rewrite Ascii.eqb_refl.
  - destruct (Ascii.eqb c sep); [discriminate|]. cbn.
    intros H. now rewrite (IH H).
Qed.

(** The split is the only way to cut a text into pieces without the
    separator. *)
Lemma split_join (sep : ascii) (pieces : list string) :
  pieces <> [] ->
  Forall (fun piece => has_char sep piece = false) pieces ->
  split sep (join sep pieces) = pieces.
Proof.
  induction pieces as [|piece pieces IH]; [congruence|].
  intros _ Hall. inversion Hall as [|? ? Hp Hps]; subst.
  destruct pieces as [|piece' pieces'].
  - cbn [join]. now apply split_plain.
  - change (join sep (piece :: piece' :: pieces'))
      with (piece ++ String sep (join sep (piece' :: pieces')))%string.
    rewrite (split_app sep piece _ Hp). f_equal.
    apply IH; [discriminate|exact Hps].
Qed.

Variable ask : AgentMessage -> string.

(** X20.  [profile_chat] gives one profile for each row of the history,
    in order, for the role and content of that row, and [num_messages]
    is their number.  Each profile has at least one state, also when the
    model answers nothing.  The names of its states are the pieces of
    the answer between its commas, in order and unchanged, white space
    included: no name holds a comma, joined by commas the names give the
    answer back, and no other cut of the answer into pieces without
    commas does.  Descriptions and tags are empty; cost and duration are
    zero. *)
Theorem profile_chat_one_per_row (history : list row) :
  num_messages (profile_chat ask history)
  = Z.of_nat (List.length (message_profiles (profile_chat ask history)))
  /\ map message (message_profiles (profile_chat ask history))
     = map (fun r => {| am_role := role r; am_content := content r |}) history
  /\ Forall (fun p =>
               states p <> []
               /\ join "," (map name (states p)) = ask (message p)
               /\ Forall (fun st => has_char "," (name st) = false) (states p)
               /\ (forall pieces,
                     pieces <> [] ->
                     Forall (fun piece => has_char "," piece = false) pieces ->
                     join "," pieces = ask (message p) ->
                     pieces = map name (states p))
               /\ Forall (fun st => description st = EmptyString /\ tags st = [])
                    (states p)
               /\ cost p = 0 /\ duration p = 0)
       (message_profiles (profile_chat ask history)).
Proof.
  unfold profile_chat. cbn [num_messages message_profiles].
  split; [now rewrite length_map|]. split.
  - rewrite map_map. reflexivity.
  - apply Forall_forall. intros p Hp. apply in_map_iff in Hp as (r & <- & _).
    unfold profile_message. cbn [states message cost duration].
    set (m := {| am_role := role r; am_content := content r |}).
    assert (Hnames : map name
                       (map (fun state_name =>
                               {| name := state_name;
                                  description := EmptyString;
                                  tags := [] |})
                          (split "," (ask m)))
                     = split "," (ask m)).
    { rewrite map_map. cbn [name]. apply map_id. }
    split; [|split; [|split; [|split; [|split; [|split]]]]].
    + destruct (split_cons "," (ask m)) as (piece & pieces & E).
      rewrite E. discriminate.
    + rewrite Hnames. apply join_split.
    + apply Forall_forall. intros st Hst.
      apply in_map_iff in Hst as (x & <- & Hx). cbn [name].
      exact (proj1 (Forall_forall _ _) (split_no_sep "," (ask m)) x Hx).
    + intros pieces Hne Hall Hjoin. rewrite Hnames, <- Hjoin.
      symmetry. now apply split_join.
    + apply Forall_forall. intros st Hst.
      apply in_map_iff in Hst as (x & <- & _). split; reflexivity.
    + reflexivity.
    + reflexivity.
Qed.

Lemma insert_stable_never_less (lt : State -> State -> bool) (x : State)
    (l : list State) :
  (forall a b, lt a b = false) -> insert_stable lt x l = x :: l.
Proof.
  intros H. destruct l as [|y l]; [reflexivity|]. simpl. now rewrite H.
Qed.

(** X21.  The sort in [ProfileNode.compose] never reorders the states:
    its comparator returns a [bool], which as a key comparison is never
    below zero, so no state counts as less than another and the stable
    sort leaves the list as it is, whatever the names. *)
Theorem states_sort_changes_nothing (p : MessageProfile) :
  displayed_states p = states p
  /\ forall x y, key_lt state_name_comparator x y = false.
Proof.
  assert (Hlt : forall x y, key_lt state_name_comparator x y = false).
  { intros x y. unfold key_lt. destruct (state_name_comparator x y); reflexivity. }
  split; [|exact Hlt]. unfold displayed_states.
  induction (states p) as [|x l IH]; [reflexivity|].
  cbn [sort]. rewrite IH. now apply insert_stable_never_less.
Qed.

Remark states_sort_example :
  map name
    (displayed_states
       {| message := {| am_role := "user"; am_content := "run it" |};
          cost := 0; duration := 0;
          states := [ {| name := "PLANNING"; description := EmptyString;
                         tags := [] |};
                      {| name := "CODING"; description := EmptyString;
                         tags := [] |} ] |})
  = ["PLANNING"; "CODING"].
Proof. reflexivity. Qed.

End ProfilerFacts.

Section ProfilerExamples.
Import ThreadStore Profiler.

Local Open Scope list_scope.

(** White space around a code stays in the name. *)
Remark split_example :
  split "," "PLANNING, CODING,,DONE" = ["PLANNING"; " CODING"; EmptyString; "DONE"]
  /\ split "," EmptyString = [EmptyString].
Proof. split; reflexivity. Qed.

Lemma profile_chat_one_per_row_witness :
  join "," ["PLANNING"; " CODING"]
  = Sample.two_codes {| am_role := "user"; am_content := "run it" |}
  /\ ["PLANNING"; " CODING"]
     = map name
         (states
            (profile_message Sample.two_codes
               {| am_role := "user"; am_content := "run it" |})).
Proof.
  split; [reflexivity|].
  pose proof (proj2 (proj2 (profile_chat_one_per_row Sample.two_codes
                              [mk_row 0 0 "user" "run it"]))) as Hall.
  apply Forall_inv in Hall.
  destruct Hall as (_ & _ & _ & Honly & _).
  apply (Honly ["PLANNING"; " CODING"]).
  - discriminate.
  - repeat constructor.
  - reflexivity.
Defined.

End ProfilerExamples.

(** ** What a request leaves alone *)

Section RequestFrame.
Import Py ThreadStore Tui.

Local Open Scope list_scope.

Variable ToolCall : Type.
Variable json_dumps : list ToolCall -> string.

Local Abbreviation hook := (post_snippet_and_record_history ToolCall json_dumps).
Local Abbreviation handle := (handle_input ToolCall json_dumps).

Lemma hook_frame (msg_idx : Z) (sender recipient : Agent)
    (m : message ToolCall) (quiet : bool) (t : table) (root' i' : Z) :
  (root', i') <> (0, msg_idx + 1) ->
  root' <> msg_idx + 1 ->
  fetch_row i' root' (snd (hook msg_idx sender m recipient quiet t))
  = fetch_row i' root' t
  /\ (root' <> 0 ->
      fetch_chat_history root' (snd (hook msg_idx sender m recipient quiet t))
      = fetch_chat_history root' t).
Proof.
  intros Hkey Hroot.
  assert (Hrec : forall ro co summary,
             fetch_row i' root'
               (post_snippet msg_idx summary
                  (snd (insert_chat_message ro co (msg_idx + 1) None t)))
             = fetch_row i' root' t
             /\ (root' <> 0 ->
                 fetch_chat_history root'
                   (post_snippet msg_idx summary
                      (snd (insert_chat_message ro co (msg_idx + 1) None t)))
                 = fetch_chat_history root' t)).
  { intros ro co summary. unfold post_snippet. split.
    - rewrite upsert_fetch_row_other by assumption.
      now apply auto_fetch_row_other_root.
    - intros H0. rewrite upsert_fetch_other_root by assumption.
      rewrite auto_fetch.
      destruct (Z.eqb_spec (msg_idx + 1) root'); [congruence|].
      apply app_nil_r. }
  unfold post_snippet_and_record_history.
  destruct quiet; [auto|].
  destruct m as [s|c tc|]; cbn [snd]; [apply Hrec| |auto].
  destruct (truthy_content c); cbn [snd]; [apply Hrec|].
  destruct (truthy_tool_calls _ tc); cbn [snd]; [apply Hrec|auto].
Qed.

Lemma run_hooks_frame (msg_idx : Z) (l : list (send ToolCall))
    (root' i' : Z) :
  (root', i') <> (0, msg_idx + 1) ->
  root' <> msg_idx + 1 ->
  forall t : table,
    fetch_row i' root' (snd (run_hooks ToolCall json_dumps msg_idx l t))
    = fetch_row i' root' t
    /\ (root' <> 0 ->
        fetch_chat_history root'
          (snd (run_hooks ToolCall json_dumps msg_idx l t))
        = fetch_chat_history root' t).
Proof.
  intros Hkey Hroot. induction l as [|s l IH]; intros t; cbn [run_hooks snd].
  - auto.
  - destruct (hook_frame msg_idx (sender _ s) (recipient _ s) (sent _ s)
                (silent _ s) t root' i' Hkey Hroot) as [H1 H2].
    destruct (hook msg_idx (sender _ s) (sent _ s) (recipient _ s)
                (silent _ s) t) as [[m'|e] t1]; cbn [snd] in *.
    + destruct (IH t1) as [H3 H4]. split; [congruence|].
      intros H0. rewrite H4, H2; auto.
    + auto.
Qed.

(** X22.  A request touches its own two rows of the top-level thread and
    the thread of its exchange, and nothing else: with [r] the id given
    to the request, [handle_input] leaves as it was every row read by
    [fetch_row] at a key other than [(0, r)] and [(0, r + 1)] outside
    thread [r + 1], and the whole of every thread other than 0 and
    [r + 1], whether the exchange ends well or with an exception. *)
Theorem request_leaves_the_rest (user_input : string)
    (ex : exchange ToolCall) (t : table) (root' i' : Z) :
  (root', i') <> (0, next_id 0 t) ->
  (root', i') <> (0, next_id 0 t + 1) ->
  root' <> next_id 0 t + 1 ->
  fetch_row i' root' (snd (handle user_input ex t)) = fetch_row i' root' t
  /\ (root' <> 0 ->
      fetch_chat_history root' (snd (handle user_input ex t))
      = fetch_chat_history root' t).
Proof.
  intros Hreq Hresp Hthread.
  unfold handle_input. rewrite !a_insert_chat_message_eq.
  change (insert_chat_message "user" user_input 0 None t)
    with (next_id 0 t, insert 0 (next_id 0 t) "user" user_input t).
  set (r := next_id 0 t) in *. set (t1 := insert 0 r "user" user_input t).
  assert (H1 : fetch_row i' root' t1 = fetch_row i' root' t
               /\ (root' <> 0 ->
                   fetch_chat_history root' t1 = fetch_chat_history root' t)).
  { subst t1. split; [now apply fetch_row_insert_other|].
    intros H0. rewrite fetch_insert.
    destruct (Z.eqb_spec 0 root'); [congruence|]. apply app_nil_r. }
  unfold a_fetch_row.
  destruct (fetch_row r 0 t1); [|exact H1].
  rewrite a_insert_chat_message_eq.
  set (t2 := snd (insert_chat_message "info" "Computing response…" 0
                    (Some (r + 1)) t1)).
  assert (H2 : fetch_row i' root' t2 = fetch_row i' root' t
               /\ (root' <> 0 ->
                   fetch_chat_history root' t2 = fetch_chat_history root' t)).
  { subst t2. destruct H1 as [H1a H1b]. split.
    - rewrite upsert_fetch_row_other by assumption. exact H1a.
    - intros H0. rewrite upsert_fetch_other_root by assumption. auto. }
  unfold generate_response_process.
  destruct (py_index (fetch_chat_history 0 t2) r); [|exact H2].
  destruct (run_hooks_frame r (sends _ ex) root' i' Hresp Hthread t2)
    as [H3 H4].
  destruct H2 as [H2a H2b].
  destruct (run_hooks ToolCall json_dumps r (sends _ ex) t2) as [[u|e] t3];
    cbn [snd] in *.
  - split.
    + rewrite upsert_fetch_row_other by assumption. congruence.
    + intros H0. rewrite upsert_fetch_other_root by assumption.
      rewrite H4, H2b; auto.
  - split; [congruence|]. intros H0. rewrite H4, H2b; auto.
Qed.

End RequestFrame.

Section RequestFrameExamples.
Import Py ThreadStore Tui.

Lemma request_leaves_the_rest_witness :
  (0, 0) <> (0, next_id 0 (snd (handle_input unit Sample.dumps "hi"
                                  Sample.one_message [])))
  /\ fetch_row 0 0
       (snd (handle_input unit Sample.dumps "again" Sample.broken_exchange
               (snd (handle_input unit Sample.dumps "hi"
                       Sample.one_message []))))
     = Some (mk_row 0 0 "user" "hi").
Proof.
  split; [vm_compute; discriminate|].
  apply (proj1 (request_leaves_the_rest unit Sample.dumps "again"
                  Sample.broken_exchange
                  (snd (handle_input unit Sample.dumps "hi"
                          Sample.one_message []))
                  0 0
                  ltac:(vm_compute; discriminate)
                  ltac:(vm_compute; discriminate)
                  ltac:(vm_compute; discriminate))).
Defined.

End RequestFrameExamples.
